(** * napari: points key bindings and the conda bundle script

    A shallow embedding of
    - [napari/layers/points/_points_key_bindings.py]: the selection commands
      bound to a [Points] layer, and
    - [bundle_conda.py]: version resolution, the module constants derived
      from it, the license archive and the build driver with its cleanup.

    Python sets of indices are [gset nat], [os.environ] and the file system
    are [gmap string _], Python strings are [string] (ASCII text), and
    functions that raise return a [result]. *)

From Stdlib Require Import Ascii String List Arith Lia.
From stdpp Require Import base gmap sets list strings pretty.

Local Open Scope string_scope.
Set Warnings "-clear-no-such-hyp,-register-all".

(* ===================================================================== *)
(** * The points layer and its selection commands *)
(* ===================================================================== *)

Module PointsKeyBindings.

(** [napari.layers.points._points_constants.Mode], as far as the key
    bindings assign it. *)
Inductive Mode := PAN_ZOOM | TRANSFORM | ADD | SELECT.

(** The part of a [Points] layer the commands read and write.  The
    coordinates of a point play no role, so the layer is generic in the
    type of a point.  [_indices_view] lists the indices of the points of
    the current slice and [_view_data] their coordinates. *)
Record Points {point : Type} := mkPoints {
  data : list point;
  _view_data : list point;
  _indices_view : list nat;
  selected_data : gset nat;
  mode : Mode;
}.
Arguments Points : clear implicits.
Arguments mkPoints {point}.

(** The messages handed to [show_info], with the values substituted into
    the template. *)
Inductive Info :=
| DeselectedInSlice (n_total : nat)
| SelectedInSlice (n_new n_total : nat)
| ClearedAll
| SelectedAll (n_new n_invis n_total : nat).

Definition render (i : Info) : string :=
  match i with
  | DeselectedInSlice n_total =>
      "Deselected all points in this slice, use Shift-A to deselect all points on the layer. ("
      ++ pretty n_total ++ " selected)"
  | SelectedInSlice n_new n_total =>
      "Selected " ++ pretty n_new
      ++ " points in this slice, use Shift-A to select all points on the layer. ("
      ++ pretty n_total ++ " selected)"
  | ClearedAll => "Cleared all selections."
  | SelectedAll n_new n_invis n_total =>
      "Selected " ++ pretty n_new ++ " points across all slices, including "
      ++ pretty n_invis ++ " points not currently visible. ("
      ++ pretty n_total ++ ")"
  end.

Section Commands.
Context {point : Type}.
Implicit Types layer : Points point.


(** The setter of [layer.selected_data]: the set is replaced. *)
Definition set_selected_data layer (s : gset nat) : Points point :=
  mkPoints (data layer) (_view_data layer) (_indices_view layer) s
           (mode layer).


(** [set(layer._indices_view[: len(layer._view_data)])] *)
Definition view_indices layer : gset nat :=
  list_to_set (take (length (_view_data layer)) (_indices_view layer)).

(** [select_all_in_slice]: the layer after the command and the message
    shown. *)
Definition select_all_in_slice layer : Points point * Info :=
  let new_selected := view_indices layer in
  if decide (new_selected ∩ selected_data layer = new_selected) then
    let layer' :=
      set_selected_data layer (selected_data layer ∖ new_selected) in
    (layer', DeselectedInSlice (size (selected_data layer')))
  else
    let layer' :=
      set_selected_data layer (selected_data layer ∪ new_selected) in
    (layer', SelectedInSlice (size new_selected)
                             (size (selected_data layer'))).

(** [select_all_data] *)
Definition select_all_data layer : Points point * Info :=
  if decide (size (selected_data layer) = length (data layer)) then
    (set_selected_data layer ∅, ClearedAll)
  else
    let new_selected : gset nat := set_seq 0 (length (data layer)) in
    let view_selected := view_indices layer in
    let layer' := set_selected_data layer new_selected in
    (layer', SelectedAll (size new_selected)
                         (size (new_selected ∖ view_selected))
                         (size (selected_data layer'))).


End Commands.

End PointsKeyBindings.

(* ===================================================================== *)
(** * The conda bundle script *)
(* ===================================================================== *)

(** ** Python built-ins used by the script *)

Module Py.

(** Exceptions the script can raise or meet.  [OSError] stands for the
    class and the four constructors after it for subclasses of it. *)
Inductive exn :=
| OSError (path : string)
| FileNotFoundError (path : string)
| PermissionError (path : string)
| IsADirectoryError (path : string)
| KeyError (key : string)
| IndexError
| RuntimeError (msg : string)
| AssertionError
| CalledProcessError (returncode : nat)
| OtherError (name : string).

(** [isinstance(e, OSError)] *)
Definition is_OSError (e : exn) : bool :=
  match e with
  | OSError _ | FileNotFoundError _ | PermissionError _
  | IsADirectoryError _ => true
  | _ => false
  end.

Inductive result (A : Type) :=
| Return (a : A)
| Raise (e : exn).
Arguments Return {A} a.
Arguments Raise {A} e.

(** A value that is a string or [None]. *)
Inductive value :=
| Str (s : string)
| None_.

(** [str(v)], which is what an f-string substitutes for [{v}]. *)
Definition str (v : value) : string :=
  match v with
  | Str s => s
  | None_ => "None"
  end.

(** Truth value of an optional string: [None] and [''] are false. *)
Definition truthy (o : option string) : bool :=
  match o with
  | Some (String _ _) => true
  | _ => false
  end.

Definition lower_char (c : ascii) : ascii :=
  let n := nat_of_ascii c in
  if (65 <=? n)%nat && (n <=? 90)%nat then ascii_of_nat (n + 32) else c.

(** [s.lower()] on ASCII text *)
Fixpoint lower (s : string) : string :=
  match s with
  | EmptyString => EmptyString
  | String c s' => String (lower_char c) (lower s')
  end.

(** [s.startswith(p)] *)
Definition startswith (s p : string) : bool := String.prefix p s.

(** [s.endswith(p)] for a one-character [p] *)
Fixpoint endswith_char (s : string) (p : ascii) : bool :=
  match s with
  | EmptyString => false
  | String c EmptyString => Ascii.eqb c p
  | String _ s' => endswith_char s' p
  end.

(** The scan of [s.replace(old, new)] for a non-empty [old]: [skip] counts
    the characters of an occurrence of [old] still to be passed over. *)
Fixpoint replace_from (old new : string) (skip : nat) (s : string) : string :=
  match s with
  | EmptyString => EmptyString
  | String c s' =>
      match skip with
      | S k => replace_from old new k s'
      | O =>
          if String.prefix old s
          then new ++ replace_from old new (String.length old - 1) s'
          else String c (replace_from old new 0 s')
      end
  end.

Fixpoint intersperse (new : string) (s : string) : string :=
  match s with
  | EmptyString => EmptyString
  | String c s' => String c (new ++ intersperse new s')
  end.

(** [s.replace(old, new)] *)
Definition replace (old new s : string) : string :=
  match old with
  | EmptyString => new ++ intersperse new s
  | _ => replace_from old new 0 s
  end.

(** The scan of [s.split(sep, maxsplit)] for a non-empty [sep]: [left] is
    the number of splits still allowed ([None] for no limit) and [cur] the
    piece being collected. *)
Fixpoint split_from (sep : string) (left : option nat) (skip : nat)
    (cur : string) (s : string) : list string :=
  match s with
  | EmptyString => [cur]
  | String c s' =>
      match skip with
      | S k => split_from sep left k cur s'
      | O =>
          let allowed := match left with Some O => false | _ => true end in
          if allowed && String.prefix sep s
          then cur :: split_from sep (Nat.pred <$> left)
                                 (String.length sep - 1) EmptyString s'
          else split_from sep left 0 (cur ++ String c EmptyString) s'
      end
  end.

(** [s.split(sep)] and [s.split(sep, maxsplit)], for the non-empty
    separators the script passes (Python rejects an empty one). *)
Definition split (sep : string) (maxsplit : option nat) (s : string)
  : list string :=
  split_from sep maxsplit 0 EmptyString s.

(** [l[i]] on a list: [IndexError] out of range. *)
Definition index {A} (l : list A) (i : nat) : result A :=
  match l !! i with
  | Some a => Return a
  | None => Raise IndexError
  end.

End Py.

(** ** The pattern of the version file *)

Module Re.

Inductive quantifier :=
| Once          (* x   *)
| Optional      (* x?  *)
| OneOrMore.    (* x+  *)

(** One quantified character class of a pattern; [in_group] tells whether
    it lies inside the capturing group. *)
Record item := mkItem {
  accepts : ascii → bool;
  quant : quantifier;
  in_group : bool;
}.

Definition pattern := list item.

Definition keep (it : item) (c : ascii) (g : string) : string :=
  if in_group it then String c g else g.

(** Greedy [x+] followed by the continuation [k]: take one character of the
    class, then as many more as still let the rest of the pattern match. *)
Fixpoint one_or_more (it : item) (k : string → option string) (s : string)
  : option string :=
  match s with
  | EmptyString => None
  | String c s' =>
      if accepts it c then
        match one_or_more it k s' with
        | Some g => Some (keep it c g)
        | None => keep it c <$> k s'
        end
      else None
  end.

(** A match of the pattern at the start of [s]; the result is the text of
    the capturing group.  Quantifiers are greedy and give back on failure,
    as in the backtracking matcher of [re]. *)
Fixpoint match_here (p : pattern) (s : string) : option string :=
  match p with
  | [] => Some EmptyString
  | it :: p' =>
      match quant it with
      | Once =>
          match s with
          | String c s' =>
              if accepts it c then keep it c <$> match_here p' s' else None
          | EmptyString => None
          end
      | Optional =>
          match s with
          | String c s' =>
              if accepts it c then
                match match_here p' s' with
                | Some g => Some (keep it c g)
                | None => match_here p' s
                end
              else match_here p' s
          | EmptyString => match_here p' s
          end
      | OneOrMore => one_or_more it (match_here p') s
      end
  end.

(** [re.search(p, s)]: the leftmost match; the result is group 1. *)
Fixpoint search (p : pattern) (s : string) : option string :=
  match match_here p s with
  | Some g => Some g
  | None =>
      match s with
      | String _ s' => search p s'
      | EmptyString => None
      end
  end.

Definition lit (c : ascii) : item := mkItem (Ascii.eqb c) Once false.

Fixpoint lits (s : string) : pattern :=
  match s with
  | EmptyString => []
  | String c s' => lit c :: lits s'
  end.

(** [\s] on ASCII text: space, tab, newline, vertical tab, form feed,
    carriage return and the separators 0x1c to 0x1f. *)
Definition is_space (c : ascii) : bool :=
  let n := nat_of_ascii c in
  (n =? 32)%nat || ((9 <=? n)%nat && (n <=? 13)%nat)
  || ((28 <=? n)%nat && (n <=? 31)%nat).

Definition quote : ascii := "'"%char.

(** [r'version\s?=\s?\'([^\']+)'] *)
Definition version_pattern : pattern :=
  (lits "version"
   ++ [mkItem is_space Optional false; lit "="%char;
       mkItem is_space Optional false; lit quote;
       mkItem (λ c, negb (Ascii.eqb c quote)) OneOrMore true])%list.

End Re.

(** ** More built-ins: lines, stripping, list search *)

Module PyText.
Import Py.

(** A line boundary of [str.splitlines] on ASCII text, [\r\n] apart: line
    feed, vertical tab, form feed, carriage return and the separators 0x1c
    to 0x1e. *)
Definition is_linebreak (c : ascii) : bool :=
  let n := nat_of_ascii c in
  ((10 <=? n)%nat && (n <=? 13)%nat) || ((28 <=? n)%nat && (n <=? 30)%nat).

(** The scan of [s.splitlines()]: [cur] is the line being collected and
    [fresh] tells that no character has been read since the last boundary,
    in which case the end of the text opens no further line. *)
Fixpoint splitlines_from (cur : string) (fresh : bool) (s : string)
  : list string :=
  match s with
  | EmptyString => if fresh then [] else [cur]
  | String c s' =>
      if Ascii.eqb c "013"%char then
        match s' with
        | String "010"%char s'' => cur :: splitlines_from EmptyString true s''
        | _ => cur :: splitlines_from EmptyString true s'
        end
      else if is_linebreak c then cur :: splitlines_from EmptyString true s'
      else splitlines_from (cur ++ String c EmptyString) false s'
  end.

(** [s.splitlines()] *)
Definition splitlines (s : string) : list string :=
  splitlines_from EmptyString true s.

(** [s.lstrip()] *)
Fixpoint lstrip (s : string) : string :=
  match s with
  | EmptyString => EmptyString
  | String c s' => if Re.is_space c then lstrip s' else s
  end.

(** [s.rstrip()] *)
Fixpoint rstrip (s : string) : string :=
  match s with
  | EmptyString => EmptyString
  | String c s' =>
      match rstrip s' with
      | EmptyString => if Re.is_space c then EmptyString
                       else String c EmptyString
      | r => String c r
      end
  end.

(** [s.strip()] *)
Definition strip (s : string) : string := rstrip (lstrip s).

(** [l.index(x)]: the first position of [x]; [ValueError] when [x] is not
    in the list. *)
Fixpoint list_index (x : string) (l : list string) : result nat :=
  match l with
  | [] => Raise (OtherError "ValueError")
  | y :: l' =>
      if String.eqb y x then Return 0
      else match list_index x l' with
           | Return i => Return (S i)
           | Raise e => Raise e
           end
  end.

End PyText.

(** ** The script *)

Module BundleConda.
Import Py.

(** [info["_licenses"]]: for each package id, for each license type, the
    paths of the license files, in the order of the document. *)
Definition Licenses := list (string * list (string * list string)).

(** The parsed [info.json], as far as [licenses] reads it: the value of
    the key [_licenses], if the document has that key. *)
Record Info := mkInfo {
  _licenses : option Licenses;
}.

(** What the interpreter and the machine hand to the script: [os.name],
    [sys.platform], [platform.machine()], [sys.version_info], the directory
    of the script, and the two library functions taken as given,
    [os.path.join] and [json.loads]. *)
Record Host := mkHost {
  os_name : string;
  sys_platform : string;
  platform_machine : string;
  version_info : nat * nat;
  script_dir : string;
  path_join : list string → string;
  json_load : string → result Info;
}.

(** [posixpath.join], the [os.path.join] of Linux and macOS. *)
Definition posix_join2 (a b : string) : string :=
  if startswith b "/" then b
  else if String.eqb a "" || endswith_char a "/" then a ++ b
  else a ++ "/" ++ b.

Definition posixpath_join (parts : list string) : string :=
  match parts with
  | [] => ""
  | a :: p => foldl posix_join2 a p
  end.

(** An entry of a zip archive: its name in the archive and its content. *)
Record ZipEntry := mkZipEntry {
  arcname : string;
  content : string;
}.

(** The state the script reads and changes: [os.environ], the text files
    in reach, the files the system refuses to delete, the zip archives
    written, the global list [clean_these_files], the two output streams,
    and the paths [os.unlink] has been called with. *)
Record World := mkWorld {
  environ : gmap string string;
  files : gmap string string;
  undeletable : gset string;
  archives : gmap string (list ZipEntry);
  clean_these_files : list string;
  stdout : list string;
  stderr : list string;
  unlinked : list string;
}.

Definition set_files (f : gmap string string → gmap string string)
    (w : World) : World :=
  mkWorld (environ w) (f (files w)) (undeletable w) (archives w)
          (clean_these_files w) (stdout w) (stderr w) (unlinked w).

Definition set_archives
    (f : gmap string (list ZipEntry) → gmap string (list ZipEntry))
    (w : World) : World :=
  mkWorld (environ w) (files w) (undeletable w) (f (archives w))
          (clean_these_files w) (stdout w) (stderr w) (unlinked w).

Definition set_unlinked (f : list string → list string) (w : World) : World :=
  mkWorld (environ w) (files w) (undeletable w) (archives w)
          (clean_these_files w) (stdout w) (stderr w) (f (unlinked w)).

(** [print(line)] and [print(line, file=sys.stderr)] *)
Definition print (line : string) (w : World) : World :=
  mkWorld (environ w) (files w) (undeletable w) (archives w)
          (clean_these_files w) (stdout w ++ [line])%list (stderr w) (unlinked w).

Definition print_err (line : string) (w : World) : World :=
  mkWorld (environ w) (files w) (undeletable w) (archives w)
          (clean_these_files w) (stdout w) (stderr w ++ [line])%list (unlinked w).

(** [open(path).read()] *)
Definition read_file (path : string) (w : World) : result string :=
  match files w !! path with
  | Some text => Return text
  | None => Raise (FileNotFoundError path)
  end.

(** [os.unlink(path)]: the file goes, unless it is missing or the system
    refuses; both failures are [OSError]s. *)
Definition os_unlink (path : string) (w : World) : result unit * World :=
  let w := set_unlinked (λ l, (l ++ [path])%list) w in
  match files w !! path with
  | None => (Raise (FileNotFoundError path), w)
  | Some _ =>
      if decide (path ∈ undeletable w)
      then (Raise (PermissionError path), w)
      else (Return (), set_files (delete path) w)
  end.

(** [Path(path).exists()] *)
Definition exists_ (path : string) (w : World) : bool :=
  bool_decide (is_Some (files w !! path)).

(** *** Version resolution *)

Definition version_file (h : Host) : string :=
  path_join h [script_dir h; "napari"; "_version.py"].

(** [_get_version]: the override variable if set; otherwise the version in
    the version file, up to the first [+]; [None] when the file holds no
    match of the pattern. *)
Definition _get_version (h : Host) (w : World) : result value :=
  match environ w !! "CONSTRUCTOR_NAPARI_VERSION" with
  | Some v => Return (Str v)
  | None =>
      match read_file (version_file h) w with
      | Raise e => Raise e
      | Return text =>
          match Re.search Re.version_pattern text with
          | Some group =>
              match index (split "+" None group) 0 with
              | Return s => Return (Str s)
              | Raise e => Raise e
              end
          | None => Return None_
          end
      end
  end.

(** *** Module constants *)

Record Constants := mkConstants {
  APP : string;
  HERE : string;
  WINDOWS : bool;
  MACOS : bool;
  LINUX : bool;
  PYTHON_VERSION : string;
  TARGET_PLATFORM : option string;
  ARCH : string;
  EXT : string;
  OS : string;
  OUTPUT_FILENAME : string;
}.

Definition get_default (env : gmap string string) (k d : string) : string :=
  default d (env !! k).

Definition compute_ARCH (h : Host) (target : option string) : string :=
  if decide (target = Some "osx-arm64") then "arm64"
  else
    let machine :=
      match platform_machine h with
      | EmptyString => "generic"
      | m => m
      end in
    replace "amd64" "x86_64" (lower machine).

(** [EXT, OS] by platform; an unknown platform is a [RuntimeError]. *)
Definition compute_EXT_OS (h : Host) : result (string * string) :=
  if String.eqb (os_name h) "nt" then Return ("exe", "Windows")
  else if startswith (sys_platform h) "linux" then Return ("sh", "Linux")
  else if String.eqb (sys_platform h) "darwin" then Return ("pkg", "macOS")
  else Raise (RuntimeError ("Unrecognized OS: " ++ sys_platform h)).

Definition output_filename (app : string) (version : value)
    (os arch ext : string) : string :=
  app ++ "-" ++ str version ++ "-" ++ os ++ "-" ++ arch ++ "." ++ ext.

(** Running the module body: the constants, or the exception that stops
    the import. *)
Definition import_module (h : Host) (w : World) : result Constants :=
  let app := get_default (environ w) "CONSTRUCTOR_APP_NAME" "napari" in
  let python_version :=
    get_default (environ w) "CONSTRUCTOR_PYTHON_VERSION"
      (pretty (version_info h).1 ++ "." ++ pretty (version_info h).2) in
  let target := environ w !! "CONSTRUCTOR_TARGET_PLATFORM" in
  let arch := compute_ARCH h target in
  match compute_EXT_OS h with
  | Raise e => Raise e
  | Return (ext, os) =>
      match _get_version h w with
      | Raise e => Raise e
      | Return version =>
          Return (mkConstants app (script_dir h)
                    (String.eqb (os_name h) "nt")
                    (String.eqb (sys_platform h) "darwin")
                    (startswith (sys_platform h) "linux")
                    python_version target arch ext os
                    (output_filename app version os arch ext))
      end
  end.

(** *** The installer definition *)

(** [_use_local] *)
Definition _use_local (w : World) : option string :=
  environ w !! "CONSTRUCTOR_USE_LOCAL".

(** [_get_channels] *)
Definition _get_channels (c : Constants) (w : World) : list string :=
  ((if truthy (_use_local w) then ["local"] else [])
   ++ ["napari/label/nightly"]
   ++ (if String.eqb (ARCH c) "arm64" then ["andfoy"] else [])
   ++ ["napari/label/bundle_tools"; "conda-forge"])%list.

(** The values of the definition mapping. *)
Inductive yaml :=
| YStr (s : string)
| YNone
| YBool (b : bool)
| YList (l : list string)
| YMap (m : list (string * yaml)).

Definition yaml_of (v : value) : yaml :=
  match v with
  | Str s => YStr s
  | None_ => YNone
  end.

(** A [dict] in insertion order: [d[k] = v] replaces the value of a key
    already there and appends a new key. *)
Fixpoint dict_set {V} (k : string) (v : V) (d : list (string * V))
  : list (string * V) :=
  match d with
  | [] => [(k, v)]
  | (k', v') :: d' =>
      if String.eqb k k' then (k, v) :: d' else (k', v') :: dict_set k v d'
  end.

Fixpoint dict_get {V} (k : string) (d : list (string * V)) : option V :=
  match d with
  | [] => None
  | (k', v') :: d' => if String.eqb k k' then Some v' else dict_get k d'
  end.

Definition dict_update {V} (new d : list (string * V)) : list (string * V) :=
  foldl (λ acc kv, dict_set kv.1 kv.2 acc) d new.

(** The result of [_get_dependencies]. *)
Record Dependencies := mkDependencies {
  base : list string;
  napari : list string;
  menu_packages : list string;
}.

(** The mapping [definitions] as [_constructor] has assembled it when it
    turns to the background images: the literal, then the changes for
    Linux, macOS and Windows.  [empty_file] is the name of the temporary
    file. *)
Definition definitions (h : Host) (c : Constants) (w : World)
    (version : value) (dependencies : Dependencies) (empty_file : string)
  : list (string * yaml) :=
  let named := APP c ++ "-" ++ str version in
  let d0 : list (string * yaml) :=
    [ ("name", YStr (APP c));
      ("company", YStr "Napari");
      ("reverse_domain_identifier", YStr "org.napari");
      ("version", yaml_of version);
      ("channels", YList (_get_channels c w));
      ("conda_default_channels", YList ["conda-forge"]);
      ("installer_filename", YStr (OUTPUT_FILENAME c));
      ("initialize_by_default", YBool false);
      ("license_file",
        YStr (path_join h [HERE c; "resources"; "bundle_license.rtf"]));
      ("specs", YList (base dependencies));
      ("extra_envs",
        YMap [("napari-" ++ str version,
               YMap [("specs", YList (napari dependencies))])]);
      ("menu_packages", YList (menu_packages dependencies));
      ("extra_files",
        YMap (dict_set empty_file (YStr ".napari_is_bundled_constructor")
                [("resources/bundle_readme.md", YStr "README.txt")])) ] in
  let d1 :=
    if LINUX c then
      dict_set "installer_type" (YStr "sh")
        (dict_set "license_file"
           (YStr (path_join h [HERE c; "resources"; "bundle_license.txt"]))
           (dict_set "default_prefix"
              (YStr (path_join h ["$HOME"; ".local"; named])) d0))
    else d0 in
  let d2 :=
    if MACOS c then
      let d := dict_set "name" (YStr named) d1 in
      let d := dict_set "default_location_pkg" (YStr "Library") d in
      let d := dict_set "installer_type" (YStr "pkg") d in
      let d := dict_set "welcome_image"
                 (YStr (path_join h [HERE c; "resources";
                                     "napari_1227x600.png"])) d in
      let d := dict_set "welcome_file"
                 (YStr (path_join h [HERE c; "resources";
                                     "osx_pkg_welcome.rtf"])) d in
      let d := dict_set "conclusion_text" (YStr "") d in
      let d := dict_set "readme_text" (YStr "") d in
      let d :=
        match environ w !! "CONSTRUCTOR_SIGNING_IDENTITY" with
        | Some (String a s) =>
            dict_set "signing_identity_name" (YStr (String a s)) d
        | _ => d
        end in
      match environ w !! "CONSTRUCTOR_NOTARIZATION_IDENTITY" with
      | Some (String a s) =>
          dict_set "notarization_identity_name" (YStr (String a s)) d
      | _ => d
      end
    else d1 in
  if WINDOWS c then
    let d := dict_set "conda_default_channels"
               (YList ["conda-forge"; "defaults"]) d2 in
    let d :=
      dict_update
        [ ("welcome_image",
            YStr (path_join h [HERE c; "resources"; "napari_164x314.png"]));
          ("header_image",
            YStr (path_join h [HERE c; "resources"; "napari_150x57.png"]));
          ("icon_image",
            YStr (path_join h [HERE c; "napari"; "resources"; "icon.ico"]));
          ("register_python_default", YBool false);
          ("default_prefix", YStr (path_join h ["%LOCALAPPDATA%"; named]));
          ("default_prefix_domain_user",
            YStr (path_join h ["%LOCALAPPDATA%"; named]));
          ("default_prefix_all_users",
            YStr (path_join h ["%ALLUSERSPROFILE%"; named]));
          ("check_path_length", YBool false);
          ("installer_type", YStr "exe") ] d in
    match environ w !! "CONSTRUCTOR_SIGNING_CERTIFICATE" with
    | Some (String a s) => dict_set "signing_certificate" (YStr (String a s)) d
    | _ => d
    end
  else d2.

(** *** The license archive *)

(** [output_zip.write(filename, arcname=arcname)] *)
Definition zip_write (filename arcname : string) (w : World)
    (zip : list ZipEntry) : result (list ZipEntry) :=
  match read_file filename w with
  | Return text => Return (zip ++ [mkZipEntry arcname text])%list
  | Raise e => Raise e
  end.

(** The innermost loop of [licenses], over [enumerate(license_files, i)]. *)
Fixpoint write_license_files (w : World) (package_name license_type : string)
    (i : nat) (license_files : list string) (zip : list ZipEntry)
  : result (list ZipEntry) :=
  match license_files with
  | [] => Return zip
  | license_file :: rest =>
      let arcname :=
        package_name ++ "." ++ replace " " "_" license_type ++ "."
        ++ pretty i ++ ".txt" in
      match zip_write license_file arcname w zip with
      | Return zip' =>
          write_license_files w package_name license_type (S i) rest zip'
      | Raise e => Raise e
      end
  end.

(** The loop over [license_info.items()]. *)
Fixpoint write_license_types (w : World) (package_name : string)
    (license_info : list (string * list string)) (zip : list ZipEntry)
  : result (list ZipEntry) :=
  match license_info with
  | [] => Return zip
  | (license_type, license_files) :: rest =>
      match write_license_files w package_name license_type 1
              license_files zip with
      | Return zip' => write_license_types w package_name rest zip'
      | Raise e => Raise e
      end
  end.

(** The loop over [info["_licenses"].items()]. *)
Fixpoint write_packages (w : World) (licenses : Licenses)
    (zip : list ZipEntry) : result (list ZipEntry) :=
  match licenses with
  | [] => Return zip
  | (package_id, license_info) :: rest =>
      match index (split "::" (Some 1) package_id) 1 with
      | Raise e => Raise e
      | Return package_name =>
          match write_license_types w package_name license_info zip with
          | Return zip' => write_packages w rest zip'
          | Raise e => Raise e
          end
      end
  end.

(** [licenses]: the name of the archive and the world with the archive in
    it. *)
Definition licenses (h : Host) (c : Constants) (w : World)
  : result string * World :=
  match read_file "info.json" w with
  | Raise e =>
      (Raise e,
       print_err
         "!! Use `constructor --debug` to write info.json and get licenses" w)
  | Return text =>
      match json_load h text with
      | Raise e => (Raise e, w)
      | Return info =>
          let zipname := "licenses." ++ OS c ++ "-" ++ ARCH c ++ ".zip" in
          match zip_write "info.json" "info.json" w [] with
          | Raise e => (Raise e, w)
          | Return zip =>
              match _licenses info with
              | None => (Raise (KeyError "_licenses"), w)
              | Some info_licenses =>
                  match write_packages w info_licenses zip with
                  | Raise e => (Raise e, w)
                  | Return zip' =>
                      (Return zipname, set_archives (insert zipname zip') w)
                  end
              end
          end
      end
  end.

(** *** The build driver *)

Section Main.
(** The build step [_constructor]: it writes the definition, calls the
    external tools and registers the files to clean; [main] depends only
    on its outcome and on the world it leaves. *)
Variable _constructor : World → result string * World.

(** The loop of the [finally] block. *)
Fixpoint cleanup (paths : list string) (w : World) : result unit * World :=
  match paths with
  | [] => (Return (), w)
  | path :: rest =>
      match os_unlink path w with
      | (Return _, w') => cleanup rest w'
      | (Raise e, w') =>
          if is_OSError e
          then cleanup rest (print ("! Could not remove " ++ path) w')
          else (Raise e, w')
      end
  end.

(** [main]: [try: _constructor() finally: cleanup], then the check that
    the installer exists. *)
Definition main (c : Constants) (w : World) : result string * World :=
  let '(built, w1) := _constructor w in
  match cleanup (clean_these_files w1) w1 with
  | (Raise e, w2) => (Raise e, w2)
  | (Return _, w2) =>
      match built with
      | Raise e => (Raise e, w2)
      | Return _ =>
          if exists_ (OUTPUT_FILENAME c) w2
          then (Return (OUTPUT_FILENAME c), w2)
          else (Raise AssertionError, w2)
      end
  end.

End Main.

(** *** Dependencies *)

Import PyText.

(** Sequencing of steps that may raise. *)
Definition and_then {A B} (r : result A) (k : A → result B) : result B :=
  match r with
  | Return a => k a
  | Raise e => Raise e
  end.

(** [non_empty_lines], local to [_get_dependencies]. *)
Definition non_empty_lines (block : string) : list string :=
  strip <$> List.filter (λ l, negb (String.eqb (strip l) "")) (splitlines block).

(** [cfg[section][option]] on the parsed [setup.cfg]: a [KeyError] for a
    missing section or option. *)
Definition cfg_get (cfg : gmap string (gmap string string))
    (section option : string) : result string :=
  match cfg !! section with
  | None => Raise (KeyError section)
  | Some options =>
      match options !! option with
      | None => Raise (KeyError option)
      | Some v => Return v
      end
  end.

(** [specs[specs.index(name)] += suffix] *)
Definition qualify (name suffix : string) (specs : list string)
  : result (list string) :=
  and_then (list_index name specs) (λ i,
  Return (alter (λ spec, spec ++ suffix) i specs)).

(** [_get_dependencies]; [cfg] is [setup.cfg] as [configparser] read it
    (empty when there is no such file). *)
Definition _get_dependencies (h : Host) (c : Constants) (w : World)
    (cfg : gmap string (gmap string string)) : result Dependencies :=
  let napari_build_str :=
    if String.eqb (ARCH c) "arm64" then "*pyqt*" else "*pyside*" in
  and_then (_get_version h w) (λ napari_version_str,
  let python_version_str := "=" ++ PYTHON_VERSION c ++ ".*" in
  and_then (cfg_get cfg "conda_installer" "base_run") (λ base_run,
  and_then (qualify "python" python_version_str (non_empty_lines base_run))
    (λ base_specs,
  and_then (cfg_get cfg "conda_installer" "napari_run") (λ napari_run,
  and_then (qualify "napari"
              ("=" ++ str napari_version_str ++ "=" ++ napari_build_str)
              (non_empty_lines napari_run)) (λ napari_specs,
  and_then (qualify "napari-menu" ("=" ++ str napari_version_str)
              napari_specs) (λ napari_specs,
  and_then (cfg_get cfg "conda_installer" "napari_run_shortcuts")
    (λ shortcuts,
  Return (mkDependencies base_specs napari_specs
                         (non_empty_lines shortcuts))))))))).

(** *** The build step *)

(** What [_constructor] takes from outside the script: the lookup of
    executables, the parsed [setup.cfg], the name of the temporary file
    [NamedTemporaryFile] makes, the import of [PIL] and [napari], the path
    of the napari logo, the bytes [PIL] saves for an image drawn from the
    logo, the text [yaml.dump] gives, the [repr] of a list, and the run of
    the external command on the files, which may fail or change them. *)
Record Tools := mkTools {
  find_executable : string → option string;
  setup_cfg : gmap string (gmap string string);
  temp_name : string;
  imports : result unit;
  logo_path : string;
  draw : string → string → string;
  yaml_dump : list (string * yaml) → string;
  list_repr : list string → string;
  check_call : list string → gmap string string → gmap string string
               → result unit * gmap string string;
}.

(** [clean_these_files.append(path)] *)
Definition register (path : string) (w : World) : World :=
  mkWorld (environ w) (files w) (undeletable w) (archives w)
          (clean_these_files w ++ [path])%list (stdout w) (stderr w)
          (unlinked w).

Definition set_environ (f : gmap string string → gmap string string)
    (w : World) : World :=
  mkWorld (f (environ w)) (files w) (undeletable w) (archives w)
          (clean_these_files w) (stdout w) (stderr w) (unlinked w).

(** Writing a text file. *)
Definition write_file (path text : string) (w : World) : World :=
  set_files (insert path text) w.

(** One image: drawn from the logo, saved, and registered for cleanup. *)
Definition save_image (t : Tools) (h : Host) (outpath name logo : string)
    (w : World) : World :=
  let output := path_join h [outpath; name] in
  register output (write_file output (draw t name logo) w).

(** [_generate_background_images]; every file that can be read counts as
    an image [PIL] can open. *)
Definition _generate_background_images (t : Tools) (h : Host)
    (installer_type outpath : string) (w : World) : result unit * World :=
  if String.eqb installer_type "sh" then (Return (), w)
  else
    match imports t with
    | Raise e => (Raise e, w)
    | Return _ =>
        match read_file (logo_path t) w with
        | Raise e => (Raise e, w)
        | Return logo =>
            let w1 :=
              if String.eqb installer_type "exe"
                 || String.eqb installer_type "all"
              then save_image t h outpath "napari_150x57.png" logo
                     (save_image t h outpath "napari_164x314.png" logo w)
              else w in
            let w2 :=
              if String.eqb installer_type "pkg"
                 || String.eqb installer_type "all"
              then save_image t h outpath "napari_1227x600.png" logo w1
              else w1 in
            (Return (), w2)
        end
    end.

(** Truth value of [definitions.get(key)]. *)
Definition has_value (key : string) (d : list (string * yaml)) : bool :=
  match dict_get key d with
  | Some (YStr (String _ _)) => true
  | Some (YBool true) => true
  | Some (YList (_ :: _)) => true
  | Some (YMap (_ :: _)) => true
  | _ => false
  end.

(** [definitions.get("installer_type", "all")] *)
Definition installer_type_of (d : list (string * yaml)) : string :=
  match dict_get "installer_type" d with
  | Some (YStr s) => s
  | _ => "all"
  end.

(** The part of [_constructor] that is for macOS only and acts on the
    world: the welcome text is read from its template, registered for
    cleanup and written with the version in it. *)
Definition write_welcome_file (h : Host) (c : Constants) (version : value)
    (w : World) : result unit * World :=
  match read_file (path_join h [HERE c; "resources";
                                "osx_pkg_welcome.rtf.tmpl"]) w with
  | Raise e => (Raise e, w)
  | Return welcome_text_tmpl =>
      let welcome_file :=
        path_join h [HERE c; "resources"; "osx_pkg_welcome.rtf"] in
      let w := register welcome_file w in
      match version with
      | None_ => (Raise (OtherError "TypeError"), w)
      | Str v =>
          (Return (),
           write_file welcome_file
             (replace "__VERSION__" v welcome_text_tmpl) w)
      end
  end.

(** The end of [_constructor], from the registration of [construct.yaml]
    on. *)
Definition run_constructor (t : Tools) (c : Constants)
    (constructor empty_file : string) (d : list (string * yaml))
    (w : World) : result string * World :=
  let w := register empty_file (register "construct.yaml" w) in
  let w :=
    match environ w !! "CONSTRUCTOR_PFX_CERTIFICATE_PASSWORD" with
    | Some (String a p) =>
        set_environ (insert "CONSTRUCTOR_PFX_CERTIFICATE_PASSWORD"
                       (strip (String a p))) w
    | _ => w
    end in
  let w := write_file "construct.yaml" (yaml_dump t d) w in
  let args :=
    match TARGET_PLATFORM c, environ w !! "CONSTRUCTOR_CONDA_EXE" with
    | Some (String a p), Some (String b e) =>
        [constructor; "-v"; "--debug"; ".";
         "--platform"; String a p; "--conda-exe"; String b e]
    | _, _ => [constructor; "-v"; "--debug"; "."]
    end in
  let env := <["CONDA_CHANNEL_PRIORITY" := "strict"]> (environ w) in
  let w := print ("Calling " ++ list_repr t args
                  ++ " with these definitions:") w in
  let w := print (yaml_dump t d) w in
  match check_call t args env (files w) with
  | (Raise e, files') => (Raise e, set_files (λ _, files') w)
  | (Return _, files') =>
      (Return (OUTPUT_FILENAME c), set_files (λ _, files') w)
  end.

(** [_constructor] *)
Definition _constructor (t : Tools) (h : Host) (c : Constants) (w : World)
  : result string * World :=
  match find_executable t "constructor" with
  | None | Some EmptyString =>
      (Raise (RuntimeError "Constructor must be installed."), w)
  | Some constructor =>
      match _get_version h w with
      | Raise e => (Raise e, w)
      | Return version =>
          match _get_dependencies h c w (setup_cfg t) with
          | Raise e => (Raise e, w)
          | Return dependencies =>
              let empty_file := temp_name t in
              let w := write_file empty_file "" w in
              let d := definitions h c w version dependencies empty_file in
              match (if MACOS c then write_welcome_file h c version w
                     else (Return (), w)) with
              | (Raise e, w) => (Raise e, w)
              | (Return _, w) =>
                  match (if has_value "welcome_image" d
                            || has_value "header_image" d
                         then _generate_background_images t h
                                (installer_type_of d) "resources" w
                         else (Return (), w)) with
                  | (Raise e, w) => (Raise e, w)
                  | (Return _, w) =>
                      run_constructor t c constructor empty_file d w
                  end
              end
          end
      end
  end.

End BundleConda.
(* ===================================================================== *)
(** * Notions used to state the properties of the selection commands *)
(* ===================================================================== *)

Module PointsSpec.
Import PointsKeyBindings.

Section Selection.
Context {point : Type}.
Implicit Types layer : Points point.

(** Applying the command and keeping the layer only. *)
Definition after_slice layer : Points point := (select_all_in_slice layer).1.
Definition after_all layer : Points point := (select_all_data layer).1.

(** The selection is a set of indices into the point collection. *)
Definition selection_in_range layer : Prop :=
  selected_data layer ⊆ set_seq 0 (length (data layer)).

(** Every index in view is the index of a point. *)
Definition view_in_range layer : Prop :=
  view_indices layer ⊆ set_seq 0 (length (data layer)).

End Selection.

(** A layer of two points, both in view, with point 0 selected. *)
Definition half_selected : Points unit :=
  mkPoints [(); ()] [(); ()] [0; 1] {[0]} SELECT.

(** A layer of three points, points 0 and 1 in view and selected. *)
Definition view_selected : Points unit :=
  mkPoints [(); (); ()] [(); ()] [0; 1] {[0; 1]} SELECT.

(** A layer of three points, all selected, one in view. *)
Definition all_selected : Points unit :=
  mkPoints [(); (); ()] [()] [2] {[0; 1; 2]} SELECT.

(** A layer of three points with nothing in view. *)
Definition nothing_in_view : Points unit :=
  mkPoints [(); (); ()] [] [] {[1]} SELECT.

End PointsSpec.

(* ===================================================================== *)
(** * Notions used to state the properties of the bundle script *)
(* ===================================================================== *)

Module BundleSpec.
Import Py BundleConda.

(** ** Hosts and worlds to run the script on *)

(** A [json.loads] that accepts no document. *)
Definition no_json (text : string) : result Info :=
  Raise (OtherError "JSONDecodeError").

(** A Linux machine with the script in [/repo]. *)
Definition linux_host : Host :=
  mkHost "posix" "linux" "x86_64" (3, 9) "/repo" posixpath_join no_json.

(** A world with the given environment variables and files and nothing
    else. *)
Definition world_of (env files : gmap string string) : World :=
  mkWorld env files ∅ ∅ [] [] [] [].

(** A version file as [setuptools_scm] writes it. *)
Definition scm_header : string :=
  "# coding: utf-8
# file generated by setuptools_scm
# don't change, don't track in version control
__version__ = ".

Definition scm_footer : string :=
  "
__version_tuple__ = version_tuple = (1, 2, 3, 'abc')
".

Definition scm_world : World :=
  world_of ∅
    {[ "/repo/napari/_version.py" :=
         scm_header ++ "version = '1.2.3+abc'" ++ scm_footer ]}.

(** A version file whose version is not in single quotes. *)
Definition unquoted_world : World :=
  world_of ∅ {[ "/repo/napari/_version.py" := "version = 1.2.3" ]}.

(** An override with a local suffix, next to a version file. *)
Definition override_world : World :=
  world_of {[ "CONSTRUCTOR_NAPARI_VERSION" := "0.4.17+local" ]}
           {[ "/repo/napari/_version.py" := "version = '1.2.3+abc'" ]}.

(** ** Notions *)

Definition result_to_option {A} (r : result A) : option A :=
  match r with
  | Return a => Some a
  | Raise _ => None
  end.

(** No match of the pattern starts inside [pre] when [pre] is followed by
    [rest]. *)
Definition no_match_within (p : Re.pattern) (pre rest : string) : Prop :=
  ∀ a b, pre = a ++ b → b ≠ "" → Re.match_here p (b ++ rest) = None.

(** The same, as a test. *)
Fixpoint no_match_withinb (p : Re.pattern) (pre rest : string) : bool :=
  match pre with
  | EmptyString => true
  | String _ pre' =>
      match Re.match_here p (pre ++ rest) with
      | Some _ => false
      | None => no_match_withinb p pre' rest
      end
  end.

(** The license files of a manifest, in the order [licenses] visits them. *)
Definition license_paths (info : Licenses) : list string :=
  pkg ← info; ty ← pkg.2; ty.2.

(** A package id of the form [channel::name]. *)
Definition has_package_name (package_id : string) : Prop :=
  ∃ channel name, package_id = channel ++ "::" ++ name.

(** The line [main] prints for a file it could not delete. *)
Definition could_not_remove (path : string) : string :=
  "! Could not remove " ++ path.

(** [os.unlink] fails exactly on a missing or an undeletable file. *)
Definition unlink_fails (path : string) (w : World) : Prop :=
  files w !! path = None ∨ path ∈ undeletable w.

(** ** A manifest to run [licenses] on *)

(** Three license files across two packages. *)
Definition sample_licenses : Licenses :=
  [ ("conda-forge::numpy-1.23.4-py39",
      [("BSD 3-Clause", ["/pkgs/numpy/LICENSE.txt"; "/pkgs/numpy/NOTICE"])]);
    ("conda-forge::zlib-1.2.13",
      [("Zlib", ["/pkgs/zlib/LICENSE"])]) ].

(** The text of the manifest; [sample_json] stands for [json.loads] and
    knows this one document. *)
Definition sample_manifest : string := "{ _licenses: numpy, zlib }".

Definition sample_json (text : string) : result Info :=
  if String.eqb text sample_manifest
  then Return (mkInfo (Some sample_licenses))
  else Raise (OtherError "JSONDecodeError").

Definition sample_host : Host :=
  mkHost "posix" "linux" "x86_64" (3, 9) "/repo" posixpath_join sample_json.

Definition sample_constants : Constants :=
  mkConstants "napari" "/repo" false false true "3.9" None "x86_64" "sh"
              "Linux" "napari-0.4.17-Linux-x86_64.sh".

Definition sample_world : World :=
  world_of ∅
    {[ "info.json" := sample_manifest;
       "/pkgs/numpy/LICENSE.txt" := "BSD";
       "/pkgs/numpy/NOTICE" := "notice";
       "/pkgs/zlib/LICENSE" := "zlib" ]}.

(** ** Notions for the further properties *)

(** The keys of the literal [definitions] starts from, in order. *)
Definition base_keys : list string :=
  [ "name"; "company"; "reverse_domain_identifier"; "version"; "channels";
    "conda_default_channels"; "installer_filename"; "initialize_by_default";
    "license_file"; "specs"; "extra_envs"; "menu_packages"; "extra_files" ].

(** The key that is added for a variable of the environment when the
    variable is set to a non-empty text. *)
Definition key_if_set (w : World) (variable key : string) : list string :=
  if truthy (environ w !! variable) then [key] else [].

(** A machine the script does not know. *)
Definition freebsd_host : Host :=
  mkHost "posix" "freebsd13" "amd64" (3, 9) "/repo" posixpath_join no_json.

(** Constants of a Linux, a macOS and a Windows build. *)
Definition linux_constants : Constants :=
  mkConstants "napari" "/repo" false false true "3.9" None "x86_64" "sh"
              "Linux" "napari-0.4.17-Linux-x86_64.sh".

Definition macos_constants : Constants :=
  mkConstants "napari" "/repo" false true false "3.9" (Some "osx-arm64")
              "arm64" "pkg" "macOS" "napari-0.4.17-macOS-arm64.pkg".

Definition windows_constants : Constants :=
  mkConstants "napari" "/repo" true false false "3.9" None "x86_64" "exe"
              "Windows" "napari-0.4.17-Windows-x86_64.exe".

(** The characters of a text. *)
Definition chars (s : string) : list ascii := list_ascii_of_string s.

(** What [\s?] can stand for: nothing, or one white-space character. *)
Definition opt_space (ws : string) : Prop :=
  ws = "" ∨ ∃ c, Re.is_space c = true ∧ ws = String c "".

(** The text ends here, or goes on with the character [c]. *)
Definition ends_or_starts (c : ascii) (s : string) : Prop :=
  s = "" ∨ ∃ s', s = String c s'.

(** The first of the paths that is not a file of the world. *)
Fixpoint first_missing (w : World) (paths : list string) : option string :=
  match paths with
  | [] => None
  | p :: rest =>
      match files w !! p with
      | None => Some p
      | Some _ => first_missing w rest
      end
  end.

(** The hint [licenses] prints when there is no manifest. *)
Definition manifest_hint : string :=
  "!! Use `constructor --debug` to write info.json and get licenses".

(** Whether [::] occurs in the text. *)
Fixpoint contains_sep (s : string) : bool :=
  String.prefix "::" s
  || match s with
     | EmptyString => false
     | String _ s' => contains_sep s'
     end.

(** A manifest whose second package id has no channel. *)
Definition unqualified_licenses : Licenses :=
  [ ("conda-forge::zlib-1.2.13", [("Zlib", ["/pkgs/zlib/LICENSE"])]);
    ("numpy-1.23.4-py39", [("BSD 3-Clause", ["/pkgs/numpy/LICENSE.txt"])]) ].

Definition unqualified_host : Host :=
  mkHost "posix" "linux" "x86_64" (3, 9) "/repo" posixpath_join
         (λ _, Return (mkInfo (Some unqualified_licenses))).

(** The message of [_constructor] when the tool is not installed. *)
Definition not_installed : string := "Constructor must be installed.".

(** The tools of a machine on which nothing is installed, and of one on
    which [constructor] is installed and builds the installer. *)
Definition no_tools : Tools :=
  mkTools (λ _, None) ∅ "/tmp/tmpab12" (Return ()) "/napari/logo.png"
          (λ name _, name) (λ _, "") (λ _, "")
          (λ _ _ fs, (Return (), fs)).

Definition sample_cfg : gmap string (gmap string string) :=
  {[ "conda_installer" :=
       {[ "base_run" := "
python
conda
mamba
";
          "napari_run" := "
napari
napari-menu
";
          "napari_run_shortcuts" := "
napari-menu
" ]} ]}.

Definition linux_tools : Tools :=
  mkTools (λ name, Some ("/usr/bin/" ++ name)) sample_cfg "/tmp/tmpab12"
          (Return ()) "/napari/logo.png" (λ name _, name)
          (λ _, "name: napari") (λ _, "[]")
          (λ _ _ fs,
             (Return (), <["napari-0.4.17-Linux-x86_64.sh" := "#!/bin/sh"]> fs)).

(** A build step that leaves the installer behind. *)
Definition leave_installer (w : World) : result string * World :=
  (Return "napari-0.4.17-Linux-x86_64.sh",
   write_file "napari-0.4.17-Linux-x86_64.sh" "#!/bin/sh" w).

(** The world [w1] differs from [w] in its files, its environment and its
    output only, and has the paths [added] registered for cleanup after
    those of [w]. *)
Definition registers (w w1 : World) (added : list string) : Prop :=
  clean_these_files w1 = (clean_these_files w ++ added)%list
  ∧ undeletable w1 = undeletable w
  ∧ unlinked w1 = unlinked w
  ∧ archives w1 = archives w.

End BundleSpec.

(* ===================================================================== *)
(** * Properties of the selection commands *)
(* ===================================================================== *)

Module PointsProofs.
Import PointsKeyBindings PointsSpec.

Section Selection.
Context {point : Type}.
Implicit Types layer : Points point.

Lemma elem_of_view_indices layer i :
  i ∈ view_indices layer ↔
  ∃ k, k < length (_view_data layer) ∧ _indices_view layer !! k = Some i.
Proof.
  unfold view_indices. rewrite elem_of_list_to_set, list_elem_of_lookup.
  split.
  - intros [k Hk]. exists k. apply lookup_take_Some in Hk. tauto.
  - intros (k & Hlt & Hk). exists k. apply lookup_take_Some. tauto.
Qed.

Lemma view_indices_set_selected layer s :
  view_indices (set_selected_data layer s) = view_indices layer.
Proof. reflexivity. Qed.

Lemma view_test_subseteq (V S : gset nat) : V ∩ S = V ↔ V ⊆ S.
Proof. set_solver. Qed.

Lemma after_slice_subset layer :
  view_indices layer ⊆ selected_data layer →
  selected_data (after_slice layer) = selected_data layer ∖ view_indices layer.
Proof.
  intros H. unfold after_slice, select_all_in_slice.
  case_decide as Hd; [reflexivity|]. exfalso. apply Hd. set_solver.
Qed.

Lemma after_slice_not_subset layer :
  ¬ view_indices layer ⊆ selected_data layer →
  selected_data (after_slice layer) = selected_data layer ∪ view_indices layer.
Proof.
  intros H. unfold after_slice, select_all_in_slice.
  case_decide as Hd; [|reflexivity]. exfalso. apply H. set_solver.
Qed.

Lemma after_slice_view layer :
  view_indices (after_slice layer) = view_indices layer.
Proof.
  unfold after_slice, select_all_in_slice. case_decide; reflexivity.
Qed.

Lemma after_slice_frame layer :
  data (after_slice layer) = data layer
  ∧ _view_data (after_slice layer) = _view_data layer
  ∧ _indices_view (after_slice layer) = _indices_view layer
  ∧ mode (after_slice layer) = mode layer.
Proof.
  unfold after_slice, select_all_in_slice. case_decide; repeat split.
Qed.

(** What two applications in a row leave selected, in each of the three
    possible situations of the visible set. *)
Lemma after_slice_twice_contained layer :
  view_indices layer ⊆ selected_data layer →
  selected_data (after_slice (after_slice layer)) = selected_data layer.
Proof.
  intros H. set (V := view_indices layer) in *.
  set (S := selected_data layer) in *.
  destruct (decide (V = ∅)) as [HV|HV].
  - rewrite after_slice_subset; rewrite after_slice_view, after_slice_subset;
      fold V S; set_solver.
  - rewrite after_slice_not_subset; rewrite after_slice_view, after_slice_subset;
      fold V S; try done.
    + apply set_eq. intros x. rewrite elem_of_union, elem_of_difference.
      split; [intros [[? _]|?]; set_solver|].
      intros Hx. destruct (decide (x ∈ V)); tauto.
    + intros Hsub. apply HV. set_solver.
Qed.

Lemma after_slice_twice_other layer :
  ¬ view_indices layer ⊆ selected_data layer →
  selected_data (after_slice (after_slice layer))
  = selected_data layer ∖ view_indices layer.
Proof.
  intros H. set (V := view_indices layer) in *.
  set (S := selected_data layer) in *.
  rewrite after_slice_subset; rewrite after_slice_view, after_slice_not_subset;
    fold V S; try done; set_solver.
Qed.

(** The converse of the two-application law: when the selection comes
    back, the visible set was contained in it or disjoint from it. *)
Lemma after_slice_twice_restores_only layer :
  selected_data (after_slice (after_slice layer)) = selected_data layer →
  view_indices layer ⊆ selected_data layer
  ∨ view_indices layer ## selected_data layer.
Proof.
  intros H. destruct (decide (view_indices layer ⊆ selected_data layer))
    as [Hs|Hs]; [by left|right].
  rewrite after_slice_twice_other in H by done. set_solver.
Qed.

(** [select_all_data] decides by counting. *)
Lemma after_all_by_count layer :
  selected_data (after_all layer)
  = if decide (size (selected_data layer) = length (data layer))
    then ∅ else set_seq 0 (length (data layer)).
Proof. unfold after_all, select_all_data. case_decide; reflexivity. Qed.

Lemma full_selection_count layer :
  selection_in_range layer →
  size (selected_data layer) = length (data layer)
  ↔ set_seq 0 (length (data layer)) ⊆ selected_data layer.
Proof.
  unfold selection_in_range. intros Hwf. split.
  - intros Hsz. assert (selected_data layer = set_seq 0 (length (data layer)))
      as ->; [|done].
    apply set_subseteq_size_eq; [done|]. rewrite size_set_seq. lia.
  - intros Hall. assert (selected_data layer = set_seq 0 (length (data layer)))
      as -> by set_solver.
    apply size_set_seq.
Qed.

End Selection.

Section SelectionClaims.
Context {point : Type}.
Implicit Types layer : Points point.

(** C3: [select_all_in_slice] computes the set V of visible indices (the
    indices stored at the first [len(_view_data)] positions of
    [_indices_view]); when V ∩ S is exactly V, for S the current
    selection, the new selection is S minus V, and otherwise it is S
    union V.  Nothing else of the layer changes. *)
Theorem select_all_in_slice_toggles layer :
  let V := view_indices layer in
  let S := selected_data layer in
  (∀ i, i ∈ V ↔ ∃ k, k < length (_view_data layer)
                     ∧ _indices_view layer !! k = Some i)
  ∧ (V ∩ S = V → selected_data (select_all_in_slice layer).1 = S ∖ V)
  ∧ (V ∩ S ≠ V → selected_data (select_all_in_slice layer).1 = S ∪ V)
  ∧ data (select_all_in_slice layer).1 = data layer
  ∧ _view_data (select_all_in_slice layer).1 = _view_data layer
  ∧ _indices_view (select_all_in_slice layer).1 = _indices_view layer.
Proof.
  intros V S. split; [apply elem_of_view_indices|].
  pose proof (after_slice_frame layer) as (Hd & Hv & Hi & _).
  repeat split; try assumption.
  - intros H. apply after_slice_subset. by apply view_test_subseteq.
  - intros H. apply after_slice_not_subset. by rewrite <- view_test_subseteq.
Qed.

(** C1, as amended: when the visible index set is entirely contained in
    the selection, or disjoint from it, two applications of
    [select_all_in_slice] in a row restore the original selection. *)
Theorem select_all_in_slice_twice layer :
  view_indices layer ⊆ selected_data layer
  ∨ view_indices layer ## selected_data layer →
  selected_data (select_all_in_slice (select_all_in_slice layer).1).1
  = selected_data layer.
Proof.
  intros [H|H]; [by apply after_slice_twice_contained|].
  destruct (decide (view_indices layer ⊆ selected_data layer)) as [Hs|Hs].
  - by apply after_slice_twice_contained.
  - change (selected_data (after_slice (after_slice layer))
            = selected_data layer).
    rewrite after_slice_twice_other by done. set_solver.
Qed.

(** C4: on a layer whose selection holds indices of its points,
    [select_all_data] empties the selection when every point is
    selected, and otherwise selects the indices 0 .. n-1 of all n points,
    whatever the view holds. *)
Theorem select_all_data_toggles layer :
  selection_in_range layer →
  let n := length (data layer) in
  (set_seq 0 n ⊆ selected_data layer →
     selected_data (select_all_data layer).1 = ∅)
  ∧ (¬ set_seq 0 n ⊆ selected_data layer →
     selected_data (select_all_data layer).1 = set_seq 0 n)
  ∧ (∀ i, i ∈ (set_seq 0 n : gset nat) ↔ i < n)
  ∧ (∀ view_data indices_view,
       selected_data
         (select_all_data (mkPoints (data layer) view_data indices_view
                                    (selected_data layer) (mode layer))).1
       = selected_data (select_all_data layer).1).
Proof.
  intros Hwf n. pose proof (full_selection_count layer Hwf) as Hcount.
  pose proof (after_all_by_count layer) as Hsel. unfold after_all in Hsel.
  fold n in Hcount, Hsel. repeat split.
  - intros H. rewrite Hsel. case_decide; [done|tauto].
  - intros H. rewrite Hsel. case_decide; [tauto|done].
  - rewrite elem_of_set_seq. lia.
  - intros H. apply elem_of_set_seq. lia.
  - intros view_data indices_view. rewrite Hsel.
    apply (after_all_by_count (mkPoints _ _ _ _ _)).
Qed.

(** C10: with no index in view, [select_all_in_slice] takes the
    deselecting branch and leaves the selection as it was. *)
Theorem select_all_in_slice_empty_view layer :
  view_indices layer = ∅ →
  selected_data (select_all_in_slice layer).1 = selected_data layer
  ∧ (select_all_in_slice layer).2
    = DeselectedInSlice (size (selected_data layer)).
Proof.
  intros H. unfold select_all_in_slice. rewrite H.
  case_decide as Hd; [|exfalso; apply Hd; set_solver].
  cbn. replace (selected_data layer ∖ ∅) with (selected_data layer)
    by set_solver. done.
Qed.

End SelectionClaims.

(** C1 fails as stated: with points 0 and 1 in view and only point 0
    selected, the first application selects both and the second deselects
    both, so point 0 is no longer selected. *)
Lemma select_all_in_slice_twice_loses :
  selected_data (select_all_in_slice (select_all_in_slice half_selected).1).1
  ≠ selected_data half_selected.
Proof.
  change (selected_data (after_slice (after_slice half_selected))
          ≠ selected_data half_selected).
  assert (view_indices half_selected = {[0; 1]}) as HV.
  { unfold view_indices; cbn. set_solver. }
  rewrite after_slice_twice_other; rewrite HV; cbn; set_solver.
Qed.

Lemma select_all_in_slice_toggles_witness :
  selected_data (select_all_in_slice view_selected).1 = ∅
  ∧ selected_data (select_all_in_slice half_selected).1 = {[0; 1]}.
Proof.
  assert (view_indices view_selected = {[0; 1]}) as HV1.
  { unfold view_indices; cbn. set_solver. }
  assert (view_indices half_selected = {[0; 1]}) as HV2.
  { unfold view_indices; cbn. set_solver. }
  split.
  - destruct (select_all_in_slice_toggles view_selected) as (_ & H & _).
    rewrite H; rewrite HV1; cbn; set_solver.
  - destruct (select_all_in_slice_toggles half_selected) as (_ & _ & H & _).
    rewrite H; rewrite HV2; cbn; set_solver.
Defined.

Lemma select_all_in_slice_twice_witness :
  selected_data (select_all_in_slice (select_all_in_slice view_selected).1).1
  = {[0; 1]}.
Proof.
  rewrite (select_all_in_slice_twice view_selected); [reflexivity|].
  left. unfold view_indices; cbn. set_solver.
Defined.

Lemma select_all_data_toggles_witness :
  selected_data (select_all_data all_selected).1 = ∅
  ∧ selected_data (select_all_data nothing_in_view).1 = {[0; 1; 2]}.
Proof.
  split.
  - destruct (select_all_data_toggles all_selected) as (H & _).
    + unfold selection_in_range; cbn. set_solver.
    + apply H. cbn. set_solver.
  - destruct (select_all_data_toggles nothing_in_view) as (_ & H & _).
    + unfold selection_in_range; cbn. set_solver.
    + rewrite H; cbn; [set_solver|].
      intros Hsub. assert (0 ∈ ({[1]} : gset nat)) by set_solver. set_solver.
Defined.

Lemma select_all_in_slice_empty_view_witness :
  selected_data (select_all_in_slice nothing_in_view).1 = {[1]}.
Proof.
  destruct (select_all_in_slice_empty_view nothing_in_view) as [H _].
  - reflexivity.
  - rewrite H. reflexivity.
Defined.

End PointsProofs.

(* ===================================================================== *)
(** * Properties of the bundle script *)
(* ===================================================================== *)

Module BundleProofs.
Import Py BundleConda BundleSpec.

(** ** Version resolution *)

Lemma no_match_withinb_sound p pre rest :
  no_match_withinb p pre rest = true → no_match_within p pre rest.
Proof.
  induction pre as [|c pre IH]; intros Hb a b Hab Hne.
  - destruct a as [|c' a]; [|discriminate].
    change ("" ++ b) with b in Hab. congruence.
  - cbn [no_match_withinb] in Hb.
    destruct (Re.match_here p (String c pre ++ rest)) eqn:Hm; [done|].
    destruct a as [|c' a].
    + change ("" ++ b) with b in Hab. by subst b.
    + change (String c' a ++ b) with (String c' (a ++ b)) in Hab.
      injection Hab as -> ->. by apply (IH Hb a b).
Qed.

Lemma search_unfold p s :
  Re.search p s = match Re.match_here p s with
                  | Some g => Some g
                  | None => match s with
                            | String _ s' => Re.search p s'
                            | EmptyString => None
                            end
                  end.
Proof. destruct s; reflexivity. Qed.

Lemma search_skips p pre rest :
  no_match_within p pre rest → Re.search p (pre ++ rest) = Re.search p rest.
Proof.
  induction pre as [|c pre IH]; intros H; [reflexivity|].
  change (String c pre ++ rest) with (String c (pre ++ rest)).
  rewrite search_unfold.
  replace (Re.match_here p (String c (pre ++ rest))) with (@None string).
  - apply IH. intros a b -> Hb. apply (H (String c a) b); done.
  - symmetry. apply (H "" (String c pre)); done.
Qed.

Lemma split_from_cons sep left skip cur s :
  ∃ x l, split_from sep left skip cur s = x :: l.
Proof.
  revert left skip cur. induction s as [|c s IH]; intros left skip cur.
  - cbn. eauto.
  - cbn. destruct skip as [|k]; [|apply IH].
    destruct (_ && _); [eauto | apply IH].
Qed.

Lemma get_version_override h w v :
  environ w !! "CONSTRUCTOR_NAPARI_VERSION" = Some v →
  _get_version h w = Return (Str v).
Proof. intros H. unfold _get_version. by rewrite H. Qed.

Lemma get_version_from_file h w text group :
  environ w !! "CONSTRUCTOR_NAPARI_VERSION" = None →
  files w !! version_file h = Some text →
  Re.search Re.version_pattern text = Some group →
  ∃ s l, split "+" None group = s :: l ∧ _get_version h w = Return (Str s).
Proof.
  intros He Hf Hs. unfold _get_version, read_file. rewrite He, Hf, Hs.
  destruct (split_from_cons "+" None 0 "" group) as (x & l & Hx).
  exists x, l. unfold split. rewrite Hx. done.
Qed.

Lemma get_version_no_match h w text :
  environ w !! "CONSTRUCTOR_NAPARI_VERSION" = None →
  files w !! version_file h = Some text →
  Re.search Re.version_pattern text = None →
  _get_version h w = Return None_.
Proof.
  intros He Hf Hs. unfold _get_version, read_file. by rewrite He, Hf, Hs.
Qed.

Lemma get_version_no_file h w :
  environ w !! "CONSTRUCTOR_NAPARI_VERSION" = None →
  files w !! version_file h = None →
  _get_version h w = Raise (FileNotFoundError (version_file h)).
Proof.
  intros He Hf. unfold _get_version, read_file. by rewrite He, Hf.
Qed.


Lemma dict_get_set_ne {V} k k' (v : V) d :
  k ≠ k' → dict_get k (dict_set k' v d) = dict_get k d.
Proof.
  intros Hne. induction d as [|[k0 v0] d IH]; cbn.
  - destruct (String.eqb_spec k k'); congruence.
  - destruct (String.eqb_spec k' k0) as [->|Hk0]; cbn.
    + destruct (String.eqb_spec k k0); congruence.
    + destruct (String.eqb_spec k k0); congruence.
Qed.

(** ** The license archive *)

Lemma split_from_exhausted sep skip cur s :
  ∃ y, split_from sep (Some 0) skip cur s = [y].
Proof.
  revert skip cur. induction s as [|c s IH]; intros skip cur; cbn; [eauto|].
  destruct skip; apply IH.
Qed.

Lemma split_from_step sep left cur c s :
  split_from sep left 0 cur (String c s)
  = if match left with Some 0 => false | _ => true end
       && String.prefix sep (String c s)
    then cur :: split_from sep (Nat.pred <$> left) (String.length sep - 1) "" s
    else split_from sep left 0 (cur ++ String c "") s.
Proof. reflexivity. Qed.

Lemma split_once_two cur a b :
  ∃ x y, split_from "::" (Some 1) 0 cur (a ++ "::" ++ b) = [x; y].
Proof.
  revert cur. induction a as [|c a IH]; intros cur.
  - change ("" ++ "::" ++ b) with (String ":" (String ":" b)).
    rewrite split_from_step.
    replace (String.prefix "::" (String ":" (String ":" b))) with true
      by (destruct b; reflexivity).
    change (Nat.pred <$> Some 1) with (Some 0).
    destruct (split_from_exhausted "::" (String.length "::" - 1) ""
                (String ":" b)) as [y ->].
    cbn. eauto.
  - change (String c a ++ "::" ++ b) with (String c (a ++ "::" ++ b)).
    rewrite split_from_step. destruct (_ && _).
    + change (Nat.pred <$> Some 1) with (Some 0).
      destruct (split_from_exhausted "::" (String.length "::" - 1) ""
                  (a ++ "::" ++ b)) as [y ->].
      eauto.
    + apply IH.
Qed.

Lemma package_name_found package_id :
  has_package_name package_id →
  ∃ name, index (split "::" (Some 1) package_id) 1 = Return name.
Proof.
  intros (channel & name & ->). unfold split.
  destruct (split_once_two "" channel name) as (x & y & ->). by exists y.
Qed.

Lemma write_license_files_ok w package_name license_type files_ i zip :
  Forall (λ path, is_Some (files w !! path)) files_ →
  ∃ new, write_license_files w package_name license_type i files_ zip
         = Return (zip ++ new)%list
         ∧ length new = length files_.
Proof.
  revert i zip. induction files_ as [|f fs IH]; intros i zip Hall.
  - exists []. cbn. by rewrite app_nil_r.
  - apply Forall_cons in Hall as [[text Hf] Hall].
    cbn [write_license_files]. unfold zip_write, read_file. rewrite Hf.
    edestruct (IH (S i)) as (new & Hnew & Hlen); [exact Hall|].
    rewrite Hnew. eexists (_ :: new). rewrite <- app_assoc.
    split; [reflexivity|]. cbn. by rewrite Hlen.
Qed.

Lemma write_license_types_ok w package_name (info : list (string * list string)) zip :
  Forall (λ path, is_Some (files w !! path)) (ty ← info; ty.2) →
  ∃ new, write_license_types w package_name info zip = Return (zip ++ new)%list
         ∧ length new = length (ty ← info; ty.2).
Proof.
  revert zip. induction info as [|[ty fs] info IH]; intros zip Hall.
  - exists []. cbn. by rewrite app_nil_r.
  - rewrite bind_cons in Hall. apply Forall_app in Hall as [Hfs Hall].
    cbn [write_license_types].
    destruct (write_license_files_ok w package_name ty fs 1 zip Hfs)
      as (new1 & -> & Hlen1).
    destruct (IH (zip ++ new1)%list Hall) as (new2 & -> & Hlen2).
    exists (new1 ++ new2)%list. rewrite app_assoc. split; [done|].
    rewrite bind_cons, !length_app. cbn [snd] in *. lia.
Qed.


(** ** Cleanup *)

Lemma os_unlink_raises_OSError path w e w' :
  os_unlink path w = (Raise e, w') → is_OSError e = true.
Proof.
  unfold os_unlink. cbn. destruct (files w !! path); [|by intros [= <- _]].
  case_decide; [by intros [= <- _]|done].
Qed.

(** The loop of the [finally] block runs to its end on every list: each
    path is handed to [os.unlink] once, in order; each failure leaves one
    line on the output; deletable files are gone and nothing else is
    touched. *)
Lemma cleanup_runs paths w :
  ∃ w' logged,
    cleanup paths w = (Return (), w')
    ∧ unlinked w' = (unlinked w ++ paths)%list
    ∧ stdout w' = (stdout w ++ (could_not_remove <$> logged))%list
    ∧ logged ⊆ paths
    ∧ (∀ p, p ∈ paths → unlink_fails p w → p ∈ logged)
    ∧ (∀ p, files w' !! p
            = if decide (p ∈ paths ∧ p ∉ undeletable w)
              then None else files w !! p)
    ∧ undeletable w' = undeletable w
    ∧ environ w' = environ w
    ∧ archives w' = archives w
    ∧ clean_these_files w' = clean_these_files w
    ∧ stderr w' = stderr w.
Proof.
  revert w. induction paths as [|path rest IH]; intros w.
  - exists w, []. cbn. rewrite !app_nil_r. repeat split; done.
  - cbn [cleanup]. unfold os_unlink. cbn [files undeletable set_unlinked].
    destruct (files w !! path) as [text|] eqn:Hf;
      [destruct (decide (path ∈ undeletable w)) as [Hu|Hu]|].
    + (* the system refuses *)
      cbn [is_OSError].
      destruct (IH (print (could_not_remove path)
                      (set_unlinked (λ l, (l ++ [path])%list) w)))
        as (w' & logged & Hc & Hun & Hout & Hsub & Hlog & Hfiles & Hrest).
      exists w', (path :: logged). split; [exact Hc|]. cbn in *.
      rewrite Hun, Hout, <- !app_assoc. repeat split; try tauto.
      * set_solver.
      * intros p Hp Hfail. apply elem_of_cons in Hp as [->|Hp]; [left|].
        right. apply Hlog; [done|]. exact Hfail.
      * intros p. rewrite Hfiles. repeat case_decide; try done; set_solver.
    + (* the file goes *)
      destruct (IH (set_files (delete path)
                      (set_unlinked (λ l, (l ++ [path])%list) w)))
        as (w' & logged & Hc & Hun & Hout & Hsub & Hlog & Hfiles & Hrest).
      exists w', logged. split; [exact Hc|]. cbn in *.
      rewrite Hun, Hout, <- !app_assoc. repeat split; try tauto.
      * set_solver.
      * intros p Hp [Hfail|Hfail].
        -- apply elem_of_cons in Hp as [->|Hp]; [congruence|].
           apply Hlog; [done|]. left. cbn.
           destruct (decide (p = path)) as [->|Hne];
             [apply lookup_delete_eq | by rewrite lookup_delete_ne].
        -- apply elem_of_cons in Hp as [->|Hp]; [done|].
           apply Hlog; [done|]. by right.
      * intros p. rewrite Hfiles.
        destruct (decide (p = path)) as [->|Hne].
        -- rewrite lookup_delete_eq.
           repeat case_decide; try done; exfalso; set_solver.
        -- rewrite lookup_delete_ne by done.
           repeat case_decide; try done; set_solver.
    + (* the file is missing *)
      cbn [is_OSError].
      destruct (IH (print (could_not_remove path)
                      (set_unlinked (λ l, (l ++ [path])%list) w)))
        as (w' & logged & Hc & Hun & Hout & Hsub & Hlog & Hfiles & Hrest).
      exists w', (path :: logged). split; [exact Hc|]. cbn in *.
      rewrite Hun, Hout, <- !app_assoc. repeat split; try tauto.
      * set_solver.
      * intros p Hp Hfail. apply elem_of_cons in Hp as [->|Hp]; [left|].
        right. apply Hlog; [done|]. exact Hfail.
      * intros p. rewrite Hfiles.
        destruct (decide (p = path)) as [->|Hne].
        -- rewrite Hf. repeat case_decide; done.
        -- repeat case_decide; try done; set_solver.
Qed.

(** ** Facts on mappings *)

Lemma dict_get_set {V} k k' (v : V) d :
  dict_get k (dict_set k' v d)
  = if String.eqb k k' then Some v else dict_get k d.
Proof.
  induction d as [|[k0 v0] d IH]; cbn.
  - reflexivity.
  - destruct (String.eqb_spec k' k0) as [->|Hk0]; cbn.
    + by destruct (String.eqb k k0).
    + destruct (String.eqb_spec k k0) as [->|Hk].
      * destruct (String.eqb_spec k0 k'); [congruence|done].
      * exact IH.
Qed.

Lemma dict_get_opt_set k k' (o : option string) (f : ascii → string → yaml) d :
  String.eqb k k' = false →
  dict_get k match o with
             | Some (String a s) => dict_set k' (f a s) d
             | _ => d
             end
  = dict_get k d.
Proof.
  intros Hne. destruct o as [[|a s]|]; try done.
  by rewrite dict_get_set, Hne.
Qed.

Lemma dict_set_keys {V} k (v : V) d :
  (dict_set k v d).*1
  = if bool_decide (k ∈ d.*1) then d.*1 else (d.*1 ++ [k])%list.
Proof.
  induction d as [|[k0 v0] d IH]; cbn; [done|].
  destruct (String.eqb_spec k k0) as [->|Hk]; cbn.
  - rewrite bool_decide_eq_true_2; [done|]. apply elem_of_cons. by left.
  - rewrite IH. destruct (bool_decide (k ∈ d.*1)) eqn:Hd.
    + apply bool_decide_eq_true_1 in Hd. rewrite bool_decide_eq_true_2; [done|].
      apply elem_of_cons. by right.
    + apply bool_decide_eq_false_1 in Hd. rewrite bool_decide_eq_false_2; [done|].
      rewrite elem_of_cons. tauto.
Qed.

Lemma dict_set_NoDup {V} k (v : V) d :
  NoDup d.*1 → NoDup (dict_set k v d).*1.
Proof.
  intros Hd. rewrite dict_set_keys. case_bool_decide as Hk; [done|].
  apply NoDup_app. split; [done|]. split.
  - intros x Hx Hx'. apply list_elem_of_singleton in Hx'. by subst.
  - apply NoDup_singleton.
Qed.

Lemma dict_update_NoDup {V} (new d : list (string * V)) :
  NoDup d.*1 → NoDup (dict_update new d).*1.
Proof.
  unfold dict_update. revert d.
  induction new as [|[k v] new IH]; intros d Hd; [done|].
  cbn. apply IH. by apply dict_set_NoDup.
Qed.

Lemma NoDup_keys_if {V} (b : bool) (d1 d2 : list (string * V)) :
  NoDup d1.*1 → NoDup d2.*1 → NoDup (if b then d1 else d2).*1.
Proof. by destruct b. Qed.

Lemma NoDup_keys_opt_set k (o : option string) (f : ascii → string → yaml) d :
  NoDup d.*1 →
  NoDup match o with
        | Some (String a s) => dict_set k (f a s) d
        | _ => d
        end.*1.
Proof. intros Hd. destruct o as [[|a s]|]; try done. by apply dict_set_NoDup. Qed.

(** Evaluation of the operations on a mapping, for literal keys; the
    values are left as they are. *)
Ltac keys_of_dict :=
  lazy [fmap list_fmap fst snd dict_get dict_set dict_update foldl app
        base_keys String.eqb Ascii.eqb Bool.eqb].

Lemma definitions_keys_NoDup h c w version deps tmp :
  NoDup (definitions h c w version deps tmp).*1.
Proof.
  assert (∀ l : list string, bool_decide (NoDup l) = true → NoDup l) as Hnd
    by (intros l; apply bool_decide_eq_true_1).
  unfold definitions.
  repeat first [ apply NoDup_keys_if | apply NoDup_keys_opt_set
               | apply dict_update_NoDup | apply dict_set_NoDup ];
    keys_of_dict; apply Hnd; vm_compute; reflexivity.
Qed.

Lemma dict_get_app {V} k (l1 l2 : list (string * V)) :
  dict_get k (l1 ++ l2)
  = match dict_get k l1 with
    | Some v => Some v
    | None => dict_get k l2
    end.
Proof.
  induction l1 as [|[k0 v0] l1 IH]; cbn; [done|].
  by destruct (String.eqb k k0).
Qed.

Lemma dict_get_update {V} k (new d : list (string * V)) :
  dict_get k (dict_update new d)
  = match dict_get k (reverse new) with
    | Some v => Some v
    | None => dict_get k d
    end.
Proof.
  unfold dict_update. revert d.
  induction new as [|[k' v'] new IH]; intros d; [done|].
  cbn [foldl fst snd].
  rewrite IH, reverse_cons, dict_get_app, dict_get_set. cbn.
  destruct (dict_get k (reverse new)); [done|].
  by destruct (String.eqb k k').
Qed.

Lemma lookup_set_hit {V} k k' (v : V) d :
  String.eqb k k' = true → dict_get k (dict_set k' v d) = Some v.
Proof. intros H. by rewrite dict_get_set, H. Qed.

Lemma lookup_set_miss {V} k k' (v : V) d r :
  String.eqb k k' = false → dict_get k d = r →
  dict_get k (dict_set k' v d) = r.
Proof. intros H <-. by rewrite dict_get_set, H. Qed.

Lemma lookup_opt_set_miss k k' (o : option string)
    (f : ascii → string → yaml) d r :
  String.eqb k k' = false → dict_get k d = r →
  dict_get k match o with
             | Some (String a s) => dict_set k' (f a s) d
             | _ => d
             end = r.
Proof. intros H <-. by apply dict_get_opt_set. Qed.

Lemma lookup_update {V} k (new d : list (string * V)) r :
  match dict_get k (reverse new) with
  | Some v => Some v
  | None => dict_get k d
  end = r →
  dict_get k (dict_update new d) = r.
Proof. intros <-. apply dict_get_update. Qed.

Lemma lookup_if {V} k (b : bool) (d1 d2 : list (string * V)) r :
  dict_get k d1 = r → dict_get k d2 = r →
  dict_get k (if b then d1 else d2) = r.
Proof. by destruct b. Qed.

(** A lookup in a mapping built by assignments, from the last assignment
    back. *)
Ltac dict_lookup :=
  repeat first
    [ apply lookup_set_hit; reflexivity
    | apply lookup_set_miss; [reflexivity|]
    | apply lookup_opt_set_miss; [reflexivity|]
    | apply lookup_if
    | apply lookup_update;
      lazy [reverse rev_append dict_get String.eqb Ascii.eqb Bool.eqb fst snd] ];
  try (keys_of_dict; reflexivity).

Lemma definitions_installer_filename h c w version deps tmp :
  dict_get "installer_filename" (definitions h c w version deps tmp)
  = Some (YStr (OUTPUT_FILENAME c)).
Proof. unfold definitions. cbv zeta. dict_lookup. Qed.

Lemma definitions_installer_type h c w version deps tmp :
  dict_get "installer_type" (definitions h c w version deps tmp)
  = if WINDOWS c then Some (YStr "exe")
    else if MACOS c then Some (YStr "pkg")
    else if LINUX c then Some (YStr "sh") else None.
Proof.
  destruct c as [app here win mac lin pv target arch ext os out].
  cbn [LINUX MACOS WINDOWS]. destruct win, mac, lin; unfold definitions;
    cbn [LINUX MACOS WINDOWS APP HERE OUTPUT_FILENAME ARCH]; dict_lookup.
Qed.



(** C6: with the override variable set, [_get_version] returns its value,
    and it does so whatever the files hold, the version file included or
    absent. *)
Theorem get_version_override_wins h w v :
  environ w !! "CONSTRUCTOR_NAPARI_VERSION" = Some v →
  _get_version h w = Return (Str v)
  ∧ ∀ fs h', _get_version h' (set_files (λ _, fs) w) = Return (Str v).
Proof.
  intros He. split; [by apply get_version_override|].
  intros fs h'. by apply get_version_override.
Qed.

(** C2, on the code: with the override variable absent and a version file
    that holds no match of the pattern, [_get_version] raises nothing and
    returns [None], and the module goes on to build its file name from
    the text None. *)
Theorem get_version_unquoted_is_None :
  _get_version linux_host unquoted_world = Return None_
  ∧ OUTPUT_FILENAME <$> result_to_option (import_module linux_host unquoted_world)
    = Some "napari-None-Linux-x86_64.sh".
Proof. split; vm_compute; reflexivity. Qed.

(** C9: with the override variable set, [_get_version] returns its value
    as it is, a [+] suffix included, and the value goes unchanged into the
    file name of the installer, the version of the definition and the name
    of the extra environment. *)
Theorem override_is_verbatim h w v :
  environ w !! "CONSTRUCTOR_NAPARI_VERSION" = Some v →
  _get_version h w = Return (Str v)
  ∧ (∀ ext os, compute_EXT_OS h = Return (ext, os) →
       ∃ c, import_module h w = Return c
            ∧ OUTPUT_FILENAME c
              = APP c ++ "-" ++ v ++ "-" ++ OS c ++ "-" ++ ARCH c ++ "." ++ EXT c)
  ∧ (∀ c version deps tmp, _get_version h w = Return version →
       dict_get "version" (definitions h c w version deps tmp) = Some (YStr v)
       ∧ dict_get "extra_envs" (definitions h c w version deps tmp)
         = Some (YMap [("napari-" ++ v, YMap [("specs", YList (napari deps))])])).
Proof.
  intros He. pose proof (get_version_override h w v He) as Hv.
  split; [done|]. split.
  - intros ext os Hos. unfold import_module. rewrite Hos, Hv. eauto.
  - intros c version deps tmp Hver. rewrite Hv in Hver.
    injection Hver as <-.
    split; unfold definitions; cbv zeta; dict_lookup.
Qed.


Lemma get_version_override_wins_witness :
  _get_version linux_host override_world = Return (Str "0.4.17+local").
Proof.
  apply (get_version_override_wins linux_host override_world "0.4.17+local").
  reflexivity.
Defined.

Lemma override_is_verbatim_witness :
  environ override_world !! "CONSTRUCTOR_NAPARI_VERSION" = Some "0.4.17+local"
  ∧ _get_version linux_host override_world = Return (Str "0.4.17+local")
  ∧ ∃ c, import_module linux_host override_world = Return c
         ∧ OUTPUT_FILENAME c
           = APP c ++ "-" ++ "0.4.17+local" ++ "-" ++ OS c ++ "-" ++ ARCH c
             ++ "." ++ EXT c.
Proof.
  split; [reflexivity|].
  destruct (override_is_verbatim linux_host override_world "0.4.17+local")
    as (Hv & Hout & _); [reflexivity|].
  split; [exact Hv|]. apply (Hout "sh" "Linux"). reflexivity.
Defined.


(** C8: whatever the build step does, [main] then hands every registered
    file to [os.unlink], once and in order, whether the build returned or
    raised; each deletion that fails leaves a line on the output and
    nothing more; the files that can be deleted are gone and no other file
    is touched; and the outcome is that of the build: its exception if it
    raised, and otherwise the check that the installer exists. *)
Theorem main_cleans_up (_constructor : World → result string * World) c w :
  let built := (_constructor w).1 in
  let w1 := (_constructor w).2 in
  ∃ w2 logged,
    main _constructor c w
    = (match built with
       | Raise e => Raise e
       | Return _ =>
           if exists_ (OUTPUT_FILENAME c) w2
           then Return (OUTPUT_FILENAME c) else Raise AssertionError
       end, w2)
    ∧ unlinked w2 = (unlinked w1 ++ clean_these_files w1)%list
    ∧ stdout w2 = (stdout w1 ++ (could_not_remove <$> logged))%list
    ∧ logged ⊆ clean_these_files w1
    ∧ (∀ p, p ∈ clean_these_files w1 → unlink_fails p w1 → p ∈ logged)
    ∧ (∀ p, p ∈ clean_these_files w1 → p ∉ undeletable w1 →
            files w2 !! p = None)
    ∧ (∀ p, p ∉ clean_these_files w1 → files w2 !! p = files w1 !! p).
Proof.
  intros built w1. unfold main. subst built w1.
  destruct (_constructor w) as [built w1]. cbn [fst snd].
  destruct (cleanup_runs (clean_these_files w1) w1)
    as (w2 & logged & -> & Hun & Hout & Hsub & Hlog & Hfiles & _).
  exists w2, logged.
  split; [destruct built; [destruct (exists_ _ _)|]; reflexivity|].
  repeat split; try done.
  - intros p Hp Hu. rewrite Hfiles. case_decide as H; [done|tauto].
  - intros p Hp. rewrite Hfiles. case_decide as H; [tauto|done].
Qed.


End BundleProofs.

(* ===================================================================== *)
(** * Further properties of the selection commands *)
(* ===================================================================== *)

Module PointsExtra.
Import PointsKeyBindings PointsSpec PointsProofs.

Section More.
Context {point : Type}.
Implicit Types layer : Points point.


(** X2: after [select_all_in_slice] the points in view are all selected or
    all unselected, and every index that is not in view is selected
    exactly when it was before. *)
Theorem select_all_in_slice_uniform_view layer :
  let V := view_indices layer in
  let S := selected_data layer in
  let S' := selected_data (select_all_in_slice layer).1 in
  (V ⊆ S' ∨ V ## S')
  ∧ (V ⊆ S → V ## S')
  ∧ (¬ V ⊆ S → V ⊆ S')
  ∧ ∀ i, i ∉ V → (i ∈ S' ↔ i ∈ S).
Proof.
  intros V S S'. subst S'. fold (after_slice layer).
  destruct (decide (V ⊆ S)) as [Hs|Hs].
  - rewrite (after_slice_subset layer Hs). fold V S. set_solver.
  - rewrite (after_slice_not_subset layer Hs). fold V S. set_solver.
Qed.

(** X3: from the second application on, [select_all_in_slice] undoes
    itself: whatever the layer, three applications in a row leave the
    selection of one application. *)
Theorem select_all_in_slice_thrice layer :
  selected_data
    (select_all_in_slice
       (select_all_in_slice (select_all_in_slice layer).1).1).1
  = selected_data (select_all_in_slice layer).1.
Proof.
  change (selected_data (after_slice (after_slice (after_slice layer)))
          = selected_data (after_slice layer)).
  destruct (decide (view_indices layer ⊆ selected_data layer)) as [Hs|Hs].
  - destruct (decide (view_indices (after_slice layer)
                      ⊆ selected_data (after_slice layer))) as [Hs'|Hs'].
    + by apply after_slice_twice_contained.
    + rewrite after_slice_twice_other by done.
      rewrite after_slice_view, after_slice_subset by done. set_solver.
  - apply after_slice_twice_contained.
    rewrite after_slice_view, after_slice_not_subset by done. set_solver.
Qed.

(** X4: the size of the selection after [select_all_in_slice]: when the
    view was selected it shrinks by the number of indices in view, and
    otherwise it grows by the number of indices in view that were not
    selected; the message reports the new size. *)
Theorem select_all_in_slice_size layer :
  let V := view_indices layer in
  let S := selected_data layer in
  let S' := selected_data (select_all_in_slice layer).1 in
  (V ⊆ S → size S' = size S - size V
           ∧ (select_all_in_slice layer).2 = DeselectedInSlice (size S'))
  ∧ (¬ V ⊆ S → size S' = size S + size (V ∖ S)
               ∧ (select_all_in_slice layer).2
                 = SelectedInSlice (size V) (size S')).
Proof.
  intros V S S'. subst S'. split; intros Hs.
  - unfold select_all_in_slice. fold V S.
    case_decide as Hd; [|exfalso; apply Hd; set_solver].
    cbn. split; [by apply size_difference|done].
  - unfold select_all_in_slice. fold V S.
    case_decide as Hd; [exfalso; apply Hs; set_solver|].
    cbn. split; [apply size_union_alt|done].
Qed.

(** X5: [select_all_data] leaves either nothing or every point selected,
    on every layer; so the selection it leaves holds indices of points
    only, whatever it held before. *)
Theorem select_all_data_all_or_nothing layer :
  (selected_data (select_all_data layer).1 = ∅
   ∨ selected_data (select_all_data layer).1
     = set_seq 0 (length (data layer)))
  ∧ selection_in_range (select_all_data layer).1
  ∧ data (select_all_data layer).1 = data layer
  ∧ _view_data (select_all_data layer).1 = _view_data layer
  ∧ _indices_view (select_all_data layer).1 = _indices_view layer
  ∧ mode (select_all_data layer).1 = mode layer.
Proof.
  unfold selection_in_range, select_all_data.
  case_decide; cbn; repeat split; auto; set_solver.
Qed.

(** X6: on a layer with at least one point and a selection of indices of
    points, two applications of [select_all_data] in a row give back a
    full selection and turn every other selection into the empty one. *)
Theorem select_all_data_twice layer :
  selection_in_range layer →
  0 < length (data layer) →
  let S'' := selected_data (select_all_data (select_all_data layer).1).1 in
  (selected_data layer = set_seq 0 (length (data layer)) →
     S'' = set_seq 0 (length (data layer)))
  ∧ (selected_data layer ≠ set_seq 0 (length (data layer)) → S'' = ∅).
Proof.
  intros Hwf Hn S''. subst S''.
  pose proof (full_selection_count layer Hwf) as Hcount.
  fold (after_all layer). fold (after_all (after_all layer)).
  assert (data (after_all layer) = data layer) as Hdata.
  { unfold after_all, select_all_data. case_decide; reflexivity. }
  pose proof (after_all_by_count layer) as H1.
  pose proof (after_all_by_count (after_all layer)) as H2.
  rewrite Hdata in H2. split.
  - intros Hfull. rewrite decide_True in H1 by (apply Hcount; set_solver).
    rewrite H1, size_empty in H2. by rewrite decide_False in H2 by lia.
  - intros Hpart. rewrite decide_False in H1.
    + rewrite H1, size_set_seq in H2. by rewrite decide_True in H2.
    + intros Hsz. apply Hpart. apply set_subseteq_size_eq; [done|].
      rewrite size_set_seq. lia.
Qed.

(** X7: [select_all_in_slice] keeps the selection within the indices of
    the points when the indices in view are indices of points. *)
Theorem select_all_in_slice_in_range layer :
  view_in_range layer →
  selection_in_range layer →
  selection_in_range (select_all_in_slice layer).1
  ∧ view_in_range (select_all_in_slice layer).1.
Proof.
  unfold view_in_range, selection_in_range. intros Hv Hs.
  fold (after_slice layer).
  pose proof (after_slice_frame layer) as (Hd & _).
  rewrite after_slice_view, Hd. split; [|done].
  destruct (decide (view_indices layer ⊆ selected_data layer)) as [H|H].
  - rewrite after_slice_subset by done. set_solver.
  - rewrite after_slice_not_subset by done. set_solver.
Qed.

(** X8: the message of [select_all_data] when it selects: the numbers of
    new and of selected points are both the number of points of the layer,
    and the number of points not in view and the number of points in view
    add up to it. *)
Theorem select_all_data_message layer :
  size (selected_data layer) ≠ length (data layer) →
  let n := length (data layer) in
  ∃ n_invis,
    (select_all_data layer).2 = SelectedAll n n_invis n
    ∧ n_invis + size (view_indices layer ∩ set_seq 0 n) = n.
Proof.
  intros Hne n. unfold select_all_data. rewrite decide_False by done.
  cbn. rewrite size_set_seq. eexists. split; [reflexivity|].
  fold n. rewrite size_difference_alt, size_set_seq.
  assert (size ((set_seq 0 n : gset nat) ∩ view_indices layer) ≤ n)%nat.
  { rewrite <- (size_set_seq (C:=gset nat) 0 n) at 2.
    apply subseteq_size. set_solver. }
  replace (view_indices layer ∩ set_seq 0 n)
    with ((set_seq 0 n : gset nat) ∩ view_indices layer) by set_solver.
  lia.
Qed.

End More.

Lemma select_all_in_slice_uniform_view_witness :
  view_indices half_selected ⊆ selected_data (select_all_in_slice half_selected).1.
Proof.
  destruct (select_all_in_slice_uniform_view half_selected) as (_ & _ & H & _).
  apply H. unfold view_indices; cbn. set_solver.
Defined.

Lemma select_all_in_slice_size_witness :
  size (selected_data (select_all_in_slice half_selected).1)
  = 1 + size (view_indices half_selected ∖ selected_data half_selected).
Proof.
  destruct (select_all_in_slice_size half_selected) as (_ & H).
  destruct H as [H _]; [unfold view_indices; cbn; set_solver|].
  rewrite H. cbn. by rewrite size_singleton.
Defined.

Lemma select_all_data_twice_witness :
  selected_data (select_all_data (select_all_data all_selected).1).1
  = {[0; 1; 2]}.
Proof.
  destruct (select_all_data_twice all_selected) as [H _].
  - unfold selection_in_range; cbn. set_solver.
  - cbn. lia.
  - rewrite H; cbn; set_solver.
Defined.

Lemma select_all_in_slice_in_range_witness :
  selection_in_range (select_all_in_slice half_selected).1.
Proof.
  apply (select_all_in_slice_in_range half_selected).
  - unfold view_in_range, view_indices; cbn. set_solver.
  - unfold selection_in_range; cbn. set_solver.
Defined.

Lemma select_all_data_message_witness :
  ∃ n_invis, (select_all_data nothing_in_view).2 = SelectedAll 3 n_invis 3.
Proof.
  destruct (select_all_data_message nothing_in_view) as (k & H & _).
  - cbn. rewrite size_singleton. lia.
  - exists k. exact H.
Defined.

End PointsExtra.

(* ===================================================================== *)
(** * Further properties of the bundle script *)
(* ===================================================================== *)

Module BundleExtra.
Import Py PyText BundleConda BundleSpec BundleProofs.

(** ** Platform, channels and the keys of the definition *)

(** X9: the channels come in a fixed order: [conda-forge] is always last,
    the nightly channel precedes the bundle tools, [local] is there, and
    first, exactly when [CONSTRUCTOR_USE_LOCAL] is set to a non-empty
    text, and [andfoy] exactly on arm64. *)
Theorem channels_in_order c w :
  let channels := _get_channels c w in
  last channels = Some "conda-forge"
  ∧ head channels
    = Some (if truthy (environ w !! "CONSTRUCTOR_USE_LOCAL") then "local"
            else "napari/label/nightly")
  ∧ ("local" ∈ channels ↔ truthy (environ w !! "CONSTRUCTOR_USE_LOCAL") = true)
  ∧ ("andfoy" ∈ channels ↔ ARCH c = "arm64")
  ∧ NoDup channels
  ∧ ["napari/label/nightly"; "napari/label/bundle_tools"; "conda-forge"]
    `sublist_of` channels.
Proof.
  intros channels. subst channels. unfold _get_channels, _use_local.
  destruct (truthy (environ w !! "CONSTRUCTOR_USE_LOCAL"));
    destruct (String.eqb_spec (ARCH c) "arm64") as [He|He]; cbn.
  all: split; [reflexivity|]; split; [reflexivity|].
  all: split; [(split; [done|intros _; set_solver])
               || (split; [|done];
                   rewrite !elem_of_cons, elem_of_nil; naive_solver)|].
  all: split; [(split; [done|intros _; set_solver])
               || (split; [|done];
                   rewrite !elem_of_cons, elem_of_nil; naive_solver)|].
  all: split; [repeat (apply NoDup_cons; split; [set_solver|]); apply NoDup_nil_2|].
  all: repeat first [apply sublist_nil | apply sublist_skip | apply sublist_cons].
Qed.

(** X10: on a platform that is neither Windows, Linux nor macOS the module
    stops with a [RuntimeError] that names the platform, before it looks
    for a version and whatever the environment and the files hold. *)
Theorem unrecognized_platform_stops_import h w :
  os_name h ≠ "nt" →
  startswith (sys_platform h) "linux" = false →
  sys_platform h ≠ "darwin" →
  import_module h w
  = Raise (RuntimeError ("Unrecognized OS: " ++ sys_platform h)).
Proof.
  intros Hnt Hlinux Hmac. unfold import_module, compute_EXT_OS.
  destruct (String.eqb_spec (os_name h) "nt"); [done|].
  rewrite Hlinux.
  destruct (String.eqb_spec (sys_platform h) "darwin"); [done|]. done.
Qed.

(** X11: when the module is imported, the extension and the name of the
    system are one of three pairs, Windows taking precedence over Linux
    and Linux over macOS; the file name of the installer is built from
    the constants; and the definition [_constructor] assembles names the
    same installer type and file name. *)
Theorem imported_constants_agree h w c :
  import_module h w = Return c →
  ((WINDOWS c = true ∧ EXT c = "exe" ∧ OS c = "Windows")
   ∨ (WINDOWS c = false ∧ LINUX c = true ∧ EXT c = "sh" ∧ OS c = "Linux")
   ∨ (WINDOWS c = false ∧ LINUX c = false ∧ MACOS c = true
      ∧ EXT c = "pkg" ∧ OS c = "macOS"))
  ∧ (∃ version, _get_version h w = Return version
       ∧ OUTPUT_FILENAME c
         = APP c ++ "-" ++ str version ++ "-" ++ OS c ++ "-" ++ ARCH c
           ++ "." ++ EXT c)
  ∧ ∀ w' version deps tmp,
      dict_get "installer_type" (definitions h c w' version deps tmp)
      = Some (YStr (EXT c))
      ∧ dict_get "installer_filename" (definitions h c w' version deps tmp)
        = Some (YStr (OUTPUT_FILENAME c)).
Proof.
  unfold import_module, compute_EXT_OS. intros H.
  destruct (String.eqb (os_name h) "nt") eqn:Hnt;
    [|destruct (startswith (sys_platform h) "linux") eqn:Hlinux;
      [|destruct (String.eqb (sys_platform h) "darwin") eqn:Hmac;
        [|discriminate]]];
    destruct (_get_version h w) as [version|] eqn:Hv; try discriminate;
    injection H as <-; cbn [WINDOWS LINUX MACOS EXT OS OUTPUT_FILENAME APP ARCH].
  - split; [left; done|]. split; [eauto|].
    intros w' v deps tmp.
    split; [|apply definitions_installer_filename].
    by rewrite definitions_installer_type.
  - split; [right; left; done|]. split; [eauto|].
    intros w' v deps tmp.
    split; [|apply definitions_installer_filename].
    rewrite definitions_installer_type. cbn [WINDOWS LINUX MACOS].
    assert (String.eqb (sys_platform h) "darwin" = false) as ->; [|done].
    apply String.eqb_neq. intros Heq. rewrite Heq in Hlinux. discriminate.
  - split; [right; right; done|]. split; [eauto|].
    intros w' v deps tmp.
    split; [|apply definitions_installer_filename].
    by rewrite definitions_installer_type.
Qed.

(** The keys after an assignment, an optional assignment and an update,
    from the keys before. *)
Definition keys_with (k : string) (keys : list string) : list string :=
  if bool_decide (k ∈ keys) then keys else (keys ++ [k])%list.

Lemma keys_set_step {V} k (v : V) d keys :
  d.*1 = keys → (dict_set k v d).*1 = keys_with k keys.
Proof. intros <-. apply dict_set_keys. Qed.

Lemma keys_opt_set_step k (o : option string) (f : ascii → string → yaml)
    d keys :
  d.*1 = keys →
  match o with
  | Some (String a s) => dict_set k (f a s) d
  | _ => d
  end.*1 = if truthy o then keys_with k keys else keys.
Proof.
  intros <-. destruct o as [[|a s]|]; try done. apply dict_set_keys.
Qed.

Lemma keys_update_step {V} (new d : list (string * V)) keys :
  d.*1 = keys →
  (dict_update new d).*1 = foldl (λ ks k, keys_with k ks) keys new.*1.
Proof.
  unfold dict_update. revert d keys.
  induction new as [|[k v] new IH]; intros d keys Hd; [done|].
  cbn [foldl fmap list_fmap fst snd]. apply IH. by apply keys_set_step.
Qed.

Ltac keys_of_definition :=
  repeat first [ apply keys_set_step | apply keys_opt_set_step
               | apply keys_update_step ];
  lazy [fmap list_fmap fst]; reflexivity.

(** X12: the keys of the definition, by platform.  On Linux the literal
    gains the default prefix and the installer type; on macOS the package
    location, the installer type, the welcome image and file and two empty
    texts, then a key for each identity that is set; on Windows three
    images, the registration flag, three prefixes, the path-length flag
    and the installer type, then the certificate if it is set.  No key
    occurs twice. *)
Theorem definition_keys_by_platform h c w version deps tmp :
  let keys := (definitions h c w version deps tmp).*1 in
  (LINUX c = true → MACOS c = false → WINDOWS c = false →
     keys = (base_keys ++ ["default_prefix"; "installer_type"])%list)
  ∧ (LINUX c = false → MACOS c = true → WINDOWS c = false →
     keys = (base_keys
             ++ ["default_location_pkg"; "installer_type"; "welcome_image";
                 "welcome_file"; "conclusion_text"; "readme_text"]
             ++ key_if_set w "CONSTRUCTOR_SIGNING_IDENTITY"
                  "signing_identity_name"
             ++ key_if_set w "CONSTRUCTOR_NOTARIZATION_IDENTITY"
                  "notarization_identity_name")%list)
  ∧ (LINUX c = false → MACOS c = false → WINDOWS c = true →
     keys = (base_keys
             ++ ["welcome_image"; "header_image"; "icon_image";
                 "register_python_default"; "default_prefix";
                 "default_prefix_domain_user"; "default_prefix_all_users";
                 "check_path_length"; "installer_type"]
             ++ key_if_set w "CONSTRUCTOR_SIGNING_CERTIFICATE"
                  "signing_certificate")%list)
  ∧ (LINUX c = false → MACOS c = false → WINDOWS c = false →
     keys = base_keys)
  ∧ NoDup keys.
Proof.
  intros keys. subst keys.
  split; [|split; [|split; [|split; [|apply definitions_keys_NoDup]]]];
    destruct c as [app here win mac lin pv target arch ext os out];
    cbn [LINUX MACOS WINDOWS]; intros -> -> ->;
    unfold definitions;
    cbn [LINUX MACOS WINDOWS APP HERE OUTPUT_FILENAME ARCH];
    (etransitivity; [keys_of_definition|]);
    unfold key_if_set;
    repeat match goal with
           | |- context [truthy ?o] => destruct (truthy o)
           end;
    vm_compute; reflexivity.
Qed.

Lemma unrecognized_platform_stops_import_witness :
  import_module freebsd_host unquoted_world
  = Raise (RuntimeError "Unrecognized OS: freebsd13").
Proof.
  apply (unrecognized_platform_stops_import freebsd_host unquoted_world);
    [discriminate | reflexivity | discriminate].
Defined.

Lemma imported_constants_agree_witness :
  ∃ c, import_module linux_host scm_world = Return c
       ∧ EXT c = "sh" ∧ OS c = "Linux"
       ∧ ∀ w' version deps tmp,
           dict_get "installer_type" (definitions linux_host c w' version deps tmp)
           = Some (YStr (EXT c)).
Proof.
  destruct (import_module linux_host scm_world) as [c|] eqn:Hc;
    [|vm_compute in Hc; discriminate].
  exists c. split; [reflexivity|].
  destruct (imported_constants_agree linux_host scm_world c Hc)
    as (Hplat & _ & Hd).
  assert (WINDOWS c = false ∧ LINUX c = true) as [Hw Hl].
  { vm_compute in Hc. injection Hc as <-. done. }
  destruct Hplat as [(Hw' & _)|[(_ & _ & He & Ho)|(_ & Hl' & _)]];
    [congruence| |congruence].
  repeat split; try done. intros. apply Hd.
Defined.

Lemma definition_keys_by_platform_witness :
  (definitions linux_host linux_constants override_world (Str "0.4.17")
     (mkDependencies ["python=3.9.*"] ["napari=0.4.17=*pyside*"] []) "/tmp/x").*1
  = (base_keys ++ ["default_prefix"; "installer_type"])%list.
Proof.
  destruct (definition_keys_by_platform linux_host linux_constants
              override_world (Str "0.4.17")
              (mkDependencies ["python=3.9.*"] ["napari=0.4.17=*pyside*"] [])
              "/tmp/x") as (H & _).
  apply H; reflexivity.
Defined.

(** ** The version read from the file *)

Lemma string_app_assoc (a b c : string) : (a ++ b) ++ c = a ++ b ++ c.
Proof.
  induction a as [|x a IH]; [reflexivity|].
  change (String x ((a ++ b) ++ c) = String x (a ++ b ++ c)). by rewrite IH.
Qed.

Lemma string_app_nil_r (a : string) : a ++ "" = a.
Proof.
  induction a as [|x a IH]; [reflexivity|].
  change (String x (a ++ "") = String x a). by rewrite IH.
Qed.

Lemma chars_app a b : chars (a ++ b) = (chars a ++ chars b)%list.
Proof.
  induction a as [|x a IH]; [reflexivity|].
  change (x :: chars (a ++ b) = x :: (chars a ++ chars b)%list). by rewrite IH.
Qed.

Lemma match_here_lit c p s g :
  Re.match_here (Re.lit c :: p) s = Some g ↔
  ∃ s', s = String c s' ∧ Re.match_here p s' = Some g.
Proof.
  cbn. destruct s as [|a s]; [split; [done|intros (? & ? & _); done]|].
  destruct (Ascii.eqb_spec c a) as [->|Hne].
  - unfold Re.keep. cbn. destruct (Re.match_here p s) as [g'|] eqn:Hm; cbn.
    + split; [intros [= <-]; eauto|intros (s' & [= <-] & Hs); congruence].
    + split; [done|intros (s' & [= <-] & Hs); congruence].
  - split; [done|intros (s' & [= ? ?] & _); done].
Qed.

Lemma match_here_opt_space p s g :
  Re.match_here (Re.mkItem Re.is_space Re.Optional false :: p) s = Some g →
  Re.match_here p s = Some g
  ∨ ∃ c s', s = String c s' ∧ Re.is_space c = true
            ∧ Re.match_here p s' = Some g.
Proof.
  cbn. destruct s as [|a s]; [by left|].
  destruct (Re.is_space a) eqn:Ha; [|by left].
  destruct (Re.match_here p s) as [g'|] eqn:Hs; [|by left].
  unfold Re.keep. cbn. intros [= <-]. right. eauto.
Qed.

Lemma match_here_opt_space_skip p s g :
  (∀ c s', s = String c s' → Re.is_space c = false) →
  Re.match_here p s = Some g →
  Re.match_here (Re.mkItem Re.is_space Re.Optional false :: p) s = Some g.
Proof.
  intros Hs Hm. cbn. destruct s as [|a s]; [done|].
  by rewrite (Hs a s eq_refl).
Qed.

Lemma match_here_opt_space_take p c s g :
  Re.is_space c = true →
  Re.match_here p s = Some g →
  Re.match_here (Re.mkItem Re.is_space Re.Optional false :: p) (String c s)
  = Some g.
Proof. intros Hc Hm. cbn. by rewrite Hc, Hm. Qed.

(** The quoted group: one or more characters other than the quote, as
    many as there are. *)
Definition group_item : Re.item :=
  Re.mkItem (λ c, negb (Ascii.eqb c Re.quote)) Re.OneOrMore true.

Lemma one_or_more_step it k c s :
  Re.one_or_more it k (String c s)
  = if Re.accepts it c then
      match Re.one_or_more it k s with
      | Some g => Some (Re.keep it c g)
      | None => Re.keep it c <$> k s
      end
    else None.
Proof. reflexivity. Qed.

Lemma group_accepts a :
  Re.accepts group_item a = negb (Ascii.eqb a Re.quote).
Proof. reflexivity. Qed.

Lemma group_keep a g : Re.keep group_item a g = String a g.
Proof. reflexivity. Qed.

Lemma group_inv s g :
  Re.match_here [group_item] s = Some g →
  g ≠ "" ∧ (Re.quote ∉ chars g)
  ∧ ∃ tail, s = g ++ tail ∧ ends_or_starts Re.quote tail.
Proof.
  change (Re.match_here [group_item] s)
    with (Re.one_or_more group_item (Re.match_here []) s).
  revert g. induction s as [|a s IH]; intros g; [done|].
  rewrite one_or_more_step, group_accepts.
  destruct (Ascii.eqb_spec a Re.quote) as [->|Hne]; cbn [negb]; [done|].
  destruct (Re.one_or_more group_item (Re.match_here []) s) as [g'|] eqn:Hs.
  - rewrite group_keep. intros [= <-].
    destruct (IH g' eq_refl) as (_ & Hq & tail & -> & Ht).
    split; [done|]. split.
    + cbn. rewrite elem_of_cons. intros [?|?]; [congruence|done].
    + by exists tail.
  - cbn. intros [= <-]. split; [done|]. split.
    + cbn. rewrite elem_of_cons, elem_of_nil. intros [?|?]; [congruence|done].
    + exists s. split; [done|].
      destruct s as [|b s]; [by left|]. right. exists s.
      rewrite one_or_more_step, group_accepts in Hs.
      destruct (Ascii.eqb_spec b Re.quote) as [->|Hb]; [done|].
      cbn [negb] in Hs.
      by destruct (Re.one_or_more group_item (Re.match_here []) s).
Qed.

Lemma group_intro g tail :
  g ≠ "" → (Re.quote ∉ chars g) → ends_or_starts Re.quote tail →
  Re.match_here [group_item] (g ++ tail) = Some g.
Proof.
  change (Re.match_here [group_item] (g ++ tail))
    with (Re.one_or_more group_item (Re.match_here []) (g ++ tail)).
  intros Hne Hq Ht. induction g as [|a g IH]; [done|].
  change (String a g ++ tail) with (String a (g ++ tail)).
  cbn in Hq. rewrite elem_of_cons in Hq.
  rewrite one_or_more_step, group_accepts.
  destruct (Ascii.eqb_spec a Re.quote) as [->|Ha]; [tauto|]. cbn [negb].
  destruct g as [|b g].
  - change ("" ++ tail) with tail.
    destruct Ht as [->|[t ->]]; [done|].
    rewrite one_or_more_step, group_accepts, Ascii.eqb_refl. done.
  - rewrite IH; [done|done|tauto].
Qed.

(** A match of the version pattern, taken apart. *)
Lemma version_match_inv s g :
  Re.match_here Re.version_pattern s = Some g →
  ∃ ws1 ws2 tail,
    s = "version" ++ ws1 ++ "=" ++ ws2 ++ "'" ++ g ++ tail
    ∧ opt_space ws1 ∧ opt_space ws2
    ∧ g ≠ "" ∧ (Re.quote ∉ chars g) ∧ ends_or_starts Re.quote tail.
Proof.
  unfold Re.version_pattern. cbn [Re.lits app]. intros H.
  repeat (apply match_here_lit in H as (? & -> & H)).
  fold group_item in H.
  assert (∀ s0 g0, Re.match_here [Re.lit Re.quote; group_item] s0 = Some g0 →
            ∃ tail, s0 = "'" ++ g0 ++ tail ∧ g0 ≠ "" ∧ (Re.quote ∉ chars g0)
                    ∧ ends_or_starts Re.quote tail) as Hquoted.
  { intros s0 g0 H0. apply match_here_lit in H0 as (s1 & -> & H0).
    apply group_inv in H0 as (? & ? & tail & -> & ?). by exists tail. }
  assert (∀ s0 g0,
            Re.match_here [Re.mkItem Re.is_space Re.Optional false;
                           Re.lit Re.quote; group_item] s0 = Some g0 →
            ∃ ws tail, s0 = ws ++ "'" ++ g0 ++ tail ∧ opt_space ws
                       ∧ g0 ≠ "" ∧ (Re.quote ∉ chars g0)
                       ∧ ends_or_starts Re.quote tail) as Hws.
  { intros s0 g0 H0.
    apply match_here_opt_space in H0 as [H0|(c & s1 & -> & Hc & H0)];
      apply Hquoted in H0 as (tail & -> & ? & ? & ?).
    - exists "", tail. repeat split; try done. by left.
    - exists (String c ""), tail. repeat split; try done. right. eauto. }
  apply match_here_opt_space in H as [H|(c & s1 & -> & Hc & H)];
    apply match_here_lit in H as (s2 & -> & H);
    apply Hws in H as (ws2 & tail & -> & ? & ? & ? & ?).
  - exists "", ws2, tail. repeat split; try done. by left.
  - exists (String c ""), ws2, tail. repeat split; try done. right. eauto.
Qed.

Lemma search_inv p text g :
  Re.search p text = Some g →
  ∃ pre rest, text = pre ++ rest ∧ Re.match_here p rest = Some g.
Proof.
  induction text as [|a text IH]; rewrite search_unfold.
  - destruct (Re.match_here p "") eqn:Hm; [|done].
    intros [= <-]. by exists "", "".
  - destruct (Re.match_here p (String a text)) eqn:Hm.
    + intros [= <-]. by exists "", (String a text).
    + intros H. destruct (IH H) as (pre & rest & -> & Hr).
      by exists (String a pre), rest.
Qed.

Lemma prefix_char_ne a c s :
  a ≠ c → String.prefix (String a "") (String c s) = false.
Proof.
  intros Hne.
  change (String.prefix (String a "") (String c s))
    with (if ascii_dec a c then String.prefix "" s else false).
  destruct (ascii_dec a c); [done|reflexivity].
Qed.

(** The first piece of [split("+")]: what comes before the first [+]. *)
Lemma split_plus_first cur s x l :
  split_from "+" None 0 cur s = x :: l →
  ∃ a r, s = a ++ r ∧ x = cur ++ a ∧ ("+"%char ∉ chars a)
         ∧ ends_or_starts "+"%char r.
Proof.
  revert cur. induction s as [|c s IH]; intros cur.
  - cbn. intros [= <- <-]. exists "", "". rewrite !string_app_nil_r.
    repeat split; try done; [apply not_elem_of_nil|by left].
  - rewrite split_from_step. cbn [andb].
    destruct (Ascii.eqb_spec c "+") as [->|Hc].
    + replace (String.prefix "+" (String "+" s)) with true
        by (destruct s; reflexivity).
      intros [= <- _]. exists "", (String "+" s). rewrite !string_app_nil_r.
      repeat split; try done; [apply not_elem_of_nil|right; eauto].
    + replace (String.prefix "+" (String c s)) with false.
      * intros H. destruct (IH _ H) as (a & r & -> & -> & Ha & Hr).
        exists (String c a), r. rewrite string_app_assoc.
        repeat split; try done.
        cbn. rewrite elem_of_cons. intros [?|?]; [congruence|done].
      * symmetry. apply prefix_char_ne. congruence.
Qed.

(** X13: a version that [_get_version] takes from the file stands in the
    file: after the word [version], an optional white-space character,
    [=], an optional white-space character and a quote, and before a [+],
    a quote or the end of the text.  It holds no [+] and no quote. *)
Theorem version_from_file_shape h w text s :
  environ w !! "CONSTRUCTOR_NAPARI_VERSION" = None →
  files w !! version_file h = Some text →
  _get_version h w = Return (Str s) →
  ("+"%char ∉ chars s) ∧ (Re.quote ∉ chars s)
  ∧ ∃ pre ws1 ws2 rest,
      text = pre ++ "version" ++ ws1 ++ "=" ++ ws2 ++ "'" ++ s ++ rest
      ∧ opt_space ws1 ∧ opt_space ws2
      ∧ (rest = "" ∨ (∃ r, rest = String "+" r) ∨ ∃ r, rest = String Re.quote r).
Proof.
  intros He Hf. unfold _get_version, read_file. rewrite He, Hf.
  destruct (Re.search Re.version_pattern text) as [g|] eqn:Hs; [|done].
  destruct (split_from_cons "+" None 0 "" g) as (x & l & Hx).
  unfold split. rewrite Hx. cbn. intros [= <-].
  apply search_inv in Hs as (pre & m & -> & Hm).
  apply version_match_inv in Hm
    as (ws1 & ws2 & tail & -> & Hw1 & Hw2 & Hg & Hq & Ht).
  apply split_plus_first in Hx as (a & r & -> & Hxa & Ha & Hr).
  change ("" ++ a) with a in Hxa. subst x.
  rewrite chars_app, not_elem_of_app in Hq. destruct Hq as [Hqa Hqr].
  repeat split; try done.
  exists pre, ws1, ws2, (r ++ tail). rewrite string_app_assoc.
  repeat split; try done.
  destruct Hr as [->|[r' ->]].
  - change ("" ++ tail) with tail. destruct Ht as [->|[t ->]]; eauto.
  - right. left. by exists (r' ++ tail).
Qed.

(** X14: writing and reading a version.  From a file that holds
    [version = '<v><local>'], where [v] has no [+] and no quote, [local]
    is empty or a [+] followed by text without quotes, the two are not
    both empty, each blank around the [=] is optional, and no match of the
    pattern starts earlier in the file, [_get_version] returns [v]. *)
Theorem version_round_trip h w pre ws1 ws2 v local suf :
  environ w !! "CONSTRUCTOR_NAPARI_VERSION" = None →
  ("+"%char ∉ chars v) → (Re.quote ∉ chars v) → (Re.quote ∉ chars local) →
  ends_or_starts "+"%char local →
  v ++ local ≠ "" →
  opt_space ws1 → opt_space ws2 →
  let assignment :=
    "version" ++ ws1 ++ "=" ++ ws2 ++ "'" ++ (v ++ local) ++ "'" ++ suf in
  files w !! version_file h = Some (pre ++ assignment) →
  no_match_within Re.version_pattern pre assignment →
  _get_version h w = Return (Str v).
Proof.
  intros He Hp Hqv Hql Hl Hne Hw1 Hw2 assignment Hf Hpre.
  assert (Re.match_here Re.version_pattern assignment = Some (v ++ local))
    as Hm.
  { subst assignment. unfold Re.version_pattern. cbn [Re.lits app].
    repeat (apply match_here_lit; eexists; split; [reflexivity|]).
    assert (Re.match_here [Re.lit Re.quote; group_item]
              ("'" ++ (v ++ local) ++ "'" ++ suf) = Some (v ++ local)) as Hq.
    { apply match_here_lit. eexists. split; [reflexivity|].
      apply group_intro; [done| |right; eauto].
      rewrite chars_app, not_elem_of_app. done. }
    assert (∀ ws, opt_space ws →
              Re.match_here [Re.mkItem Re.is_space Re.Optional false;
                             Re.lit Re.quote; group_item]
                (ws ++ "'" ++ (v ++ local) ++ "'" ++ suf)
              = Some (v ++ local)) as Hws.
    { intros ws [->|(c & Hc & ->)].
      - apply match_here_opt_space_skip; [|exact Hq].
        intros c s' [= <- _]. reflexivity.
      - by apply match_here_opt_space_take. }
    fold group_item.
    destruct Hw1 as [->|(c & Hc & ->)].
    - apply match_here_opt_space_skip.
      + intros c s' [= <- _]. reflexivity.
      + apply match_here_lit. eexists. split; [reflexivity|]. by apply Hws.
    - apply match_here_opt_space_take; [done|].
      apply match_here_lit. eexists. split; [reflexivity|]. by apply Hws. }
  destruct (get_version_from_file h w _ (v ++ local) He Hf)
    as (x & l & Hx & ->).
  { rewrite search_skips by done. rewrite search_unfold. by rewrite Hm. }
  f_equal. f_equal. unfold split in Hx.
  apply split_plus_first in Hx as (a & r & Hvl & -> & Ha & Hr).
  change ("" ++ a) with a.
  clear -Hvl Ha Hr Hp Hl. revert a Hvl Ha. induction v as [|c v IH]; intros a.
  - change ("" ++ local) with local. intros -> Ha.
    destruct a as [|c a]; [done|]. exfalso.
    destruct Hl as [Hl|[t Hl]]; [done|]. injection Hl as -> _.
    apply Ha. cbn. apply elem_of_cons. by left.
  - change (String c v ++ local) with (String c (v ++ local)). intros Hvl Ha.
    cbn in Hp. rewrite elem_of_cons in Hp.
    destruct a as [|c' a].
    + exfalso. change ("" ++ r) with r in Hvl.
      destruct Hr as [->|[t ->]]; [done|]. injection Hvl as -> _. tauto.
    + change (String c' a ++ r) with (String c' (a ++ r)) in Hvl.
      injection Hvl as -> Hvl. f_equal. apply IH; [tauto|done|].
      cbn in Ha. rewrite elem_of_cons in Ha. tauto.
Qed.

Ltac not_among_chars :=
  let H := fresh in
  cbn; intros H;
  repeat (apply elem_of_cons in H as [H|H]; [discriminate|]);
  by apply elem_of_nil in H.

Lemma version_from_file_shape_witness :
  ("+"%char ∉ chars "1.2.3") ∧ (Re.quote ∉ chars "1.2.3").
Proof.
  destruct (version_from_file_shape linux_host scm_world
              (scm_header ++ "version = '1.2.3+abc'" ++ scm_footer) "1.2.3")
    as (H1 & H2 & _).
  - reflexivity.
  - reflexivity.
  - vm_compute. reflexivity.
  - split; assumption.
Defined.

Lemma version_round_trip_witness :
  _get_version linux_host scm_world = Return (Str "1.2.3").
Proof.
  apply (version_round_trip linux_host scm_world scm_header " " " "
           "1.2.3" "+abc" scm_footer).
  - reflexivity.
  - not_among_chars.
  - not_among_chars.
  - not_among_chars.
  - right. by exists "abc".
  - discriminate.
  - right. exists " "%char. split; reflexivity.
  - right. exists " "%char. split; reflexivity.
  - reflexivity.
  - apply no_match_withinb_sound. vm_compute. reflexivity.
Defined.

(** ** The license archive: failures and contents *)

Lemma prefix_nil s : String.prefix "" s = true.
Proof. by destruct s. Qed.

Lemma prefix_cons a p c s :
  String.prefix (String a p) (String c s)
  = if ascii_dec a c then String.prefix p s else false.
Proof. reflexivity. Qed.

Lemma prefix_sep_inv s :
  String.prefix "::" s = true → ∃ r, s = "::" ++ r.
Proof.
  destruct s as [|a [|b r]]; try done.
  - rewrite prefix_cons. by destruct (ascii_dec ":" a).
  - rewrite !prefix_cons.
    destruct (ascii_dec ":" a) as [<-|]; [|done].
    destruct (ascii_dec ":" b) as [<-|]; [|done]. by exists r.
Qed.

Lemma split_without_separator package_id cur :
  ¬ has_package_name package_id →
  split_from "::" (Some 1) 0 cur package_id = [cur ++ package_id].
Proof.
  revert cur. induction package_id as [|c s IH]; intros cur Hno.
  - cbn. by rewrite string_app_nil_r.
  - rewrite split_from_step. cbn [andb].
    destruct (String.prefix "::" (String c s)) eqn:Hp.
    + exfalso. apply prefix_sep_inv in Hp as [r Hr]. apply Hno.
      exists "", r. by rewrite Hr.
    + rewrite IH.
      * by rewrite string_app_assoc.
      * intros (a & b & ->). apply Hno. by exists (String c a), b.
Qed.

Lemma first_missing_app w l1 l2 :
  first_missing w (l1 ++ l2)
  = match first_missing w l1 with
    | Some m => Some m
    | None => first_missing w l2
    end.
Proof.
  induction l1 as [|p l1 IH]; [reflexivity|]. cbn.
  by destruct (files w !! p).
Qed.

Lemma first_missing_None w l :
  first_missing w l = None ↔ Forall (λ p, is_Some (files w !! p)) l.
Proof.
  induction l as [|p l IH]; cbn; [by split|].
  rewrite Forall_cons. destruct (files w !! p) eqn:Hp.
  - rewrite IH. split; [eauto|tauto].
  - split; [done|]. intros [[? ?] _]. done.
Qed.

(** The three loops of [licenses], with the first missing file as the
    failure and the contents of the entries in order. *)
Lemma write_license_files_result w package_name license_type files_ i zip :
  match first_missing w files_ with
  | Some m =>
      write_license_files w package_name license_type i files_ zip
      = Raise (FileNotFoundError m)
  | None =>
      ∃ new, write_license_files w package_name license_type i files_ zip
             = Return (zip ++ new)%list
             ∧ Forall2 (λ e p, files w !! p = Some (content e)) new files_
  end.
Proof.
  revert i zip. induction files_ as [|f fs IH]; intros i zip.
  - cbn. exists []. by rewrite app_nil_r.
  - cbn [first_missing write_license_files]. unfold zip_write, read_file.
    destruct (files w !! f) as [text|] eqn:Hf; [|done].
    specialize (IH (S i)
      (zip ++ [mkZipEntry
                 (package_name ++ "." ++ replace " " "_" license_type ++ "."
                  ++ pretty i ++ ".txt") text])%list).
    destruct (first_missing w fs); [done|].
    destruct IH as (new & -> & Hnew).
    eexists (_ :: new). rewrite <- app_assoc. split; [reflexivity|].
    by constructor.
Qed.

Lemma write_license_types_result w package_name
    (info : list (string * list string)) zip :
  match first_missing w (ty ← info; ty.2) with
  | Some m =>
      write_license_types w package_name info zip
      = Raise (FileNotFoundError m)
  | None =>
      ∃ new, write_license_types w package_name info zip
             = Return (zip ++ new)%list
             ∧ Forall2 (λ e p, files w !! p = Some (content e)) new
                       (ty ← info; ty.2)
  end.
Proof.
  revert zip. induction info as [|[ty fs] info IH]; intros zip.
  - cbn. exists []. by rewrite app_nil_r.
  - rewrite bind_cons, first_missing_app. cbn [write_license_types snd].
    pose proof (write_license_files_result w package_name ty fs 1 zip) as H1.
    destruct (first_missing w fs); [by rewrite H1|].
    destruct H1 as (new1 & -> & Hnew1).
    specialize (IH (zip ++ new1)%list).
    destruct (first_missing w (ty ← info; ty.2)); [done|].
    destruct IH as (new2 & -> & Hnew2).
    exists (new1 ++ new2)%list. rewrite app_assoc. split; [done|].
    by apply Forall2_app.
Qed.

Lemma write_packages_result w (info : Licenses) zip :
  Forall (λ pkg, has_package_name pkg.1) info →
  match first_missing w (license_paths info) with
  | Some m => write_packages w info zip = Raise (FileNotFoundError m)
  | None =>
      ∃ new, write_packages w info zip = Return (zip ++ new)%list
             ∧ Forall2 (λ e p, files w !! p = Some (content e)) new
                       (license_paths info)
  end.
Proof.
  unfold license_paths. revert zip.
  induction info as [|[id tys] info IH]; intros zip Hids.
  - cbn. exists []. by rewrite app_nil_r.
  - apply Forall_cons in Hids as [Hid Hids].
    rewrite bind_cons, first_missing_app. cbn [write_packages snd].
    destruct (package_name_found id Hid) as (name & ->).
    pose proof (write_license_types_result w name tys zip) as H1.
    destruct (first_missing w (ty ← tys; ty.2)); [by rewrite H1|].
    destruct H1 as (new1 & -> & Hnew1).
    specialize (IH (zip ++ new1)%list Hids).
    destruct (first_missing w (pkg ← info; ty ← pkg.2; ty.2)); [done|].
    destruct IH as (new2 & -> & Hnew2).
    exists (new1 ++ new2)%list. rewrite app_assoc. split; [done|].
    by apply Forall2_app.
Qed.

(** X15: without a manifest [licenses] raises [FileNotFoundError] for
    [info.json], prints its hint on the error stream and on no other, and
    writes no archive and no file. *)
Theorem licenses_without_manifest h c w :
  files w !! "info.json" = None →
  (licenses h c w).1 = Raise (FileNotFoundError "info.json")
  ∧ stderr (licenses h c w).2 = (stderr w ++ [manifest_hint])%list
  ∧ stdout (licenses h c w).2 = stdout w
  ∧ archives (licenses h c w).2 = archives w
  ∧ files (licenses h c w).2 = files w.
Proof.
  intros Hf. unfold licenses, read_file. rewrite Hf. done.
Qed.

(** X16: a package id without [::] stops [licenses] with an
    [IndexError], when the packages before it are well formed and their
    license files in place. *)
Theorem licenses_bad_package_id h c w text (good rest : Licenses) id tys :
  files w !! "info.json" = Some text →
  json_load h text = Return (mkInfo (Some (good ++ (id, tys) :: rest)%list)) →
  Forall (λ pkg, has_package_name pkg.1) good →
  Forall (λ path, is_Some (files w !! path)) (license_paths good) →
  ¬ has_package_name id →
  (licenses h c w).1 = Raise IndexError.
Proof.
  intros Hf Hj Hgood Hfiles Hid. unfold licenses, zip_write, read_file.
  rewrite Hf, Hj. cbn [_licenses].
  assert (∀ zip, write_packages w (good ++ (id, tys) :: rest)%list zip
                 = Raise IndexError) as ->; [|done].
  clear Hf Hj.
  induction good as [|[gid gtys] good IH]; intros zip.
  - cbn [app write_packages]. unfold split.
    by rewrite split_without_separator.
  - apply Forall_cons in Hgood as [Hg Hgood].
    unfold license_paths in Hfiles. rewrite bind_cons in Hfiles.
    apply Forall_app in Hfiles as [Hf1 Hf2].
    cbn [app write_packages]. destruct (package_name_found gid Hg) as (n & ->).
    destruct (write_license_types_ok w n gtys zip Hf1) as (new & -> & _).
    by apply IH.
Qed.

(** X17: with well-formed package ids, [licenses] fails exactly when a
    license file is missing, with a [FileNotFoundError] for the first one
    in the order of the manifest; otherwise it returns the name of the
    archive, and the archive holds the manifest and then the contents of
    the license files, in that order. *)
Theorem licenses_contents h c w text (info : Licenses) :
  files w !! "info.json" = Some text →
  json_load h text = Return (mkInfo (Some info)) →
  Forall (λ pkg, has_package_name pkg.1) info →
  let zipname := "licenses." ++ OS c ++ "-" ++ ARCH c ++ ".zip" in
  match first_missing w (license_paths info) with
  | Some m => (licenses h c w).1 = Raise (FileNotFoundError m)
  | None =>
      (licenses h c w).1 = Return zipname
      ∧ ∃ zip, archives (licenses h c w).2 !! zipname = Some zip
               ∧ Forall2 (λ e p, files w !! p = Some (content e)) zip
                         ("info.json" :: license_paths info)
  end.
Proof.
  intros Hf Hj Hids zipname. unfold licenses, zip_write, read_file.
  rewrite Hf, Hj. cbn [_licenses].
  pose proof (write_packages_result w info
                ([] ++ [mkZipEntry "info.json" text])%list Hids) as H.
  destruct (first_missing w (license_paths info)); [by rewrite H|].
  destruct H as (new & -> & Hnew). split; [done|].
  eexists. cbn. rewrite lookup_insert_eq. split; [reflexivity|].
  by constructor.
Qed.

Lemma contains_sep_complete s : has_package_name s → contains_sep s = true.
Proof.
  intros (a & b & ->). induction a as [|c a IH].
  - change ("" ++ "::" ++ b) with (String ":" (String ":" b)).
    cbn [contains_sep]. rewrite !prefix_cons, prefix_nil. done.
  - change (String c a ++ "::" ++ b) with (String c (a ++ "::" ++ b)).
    cbn [contains_sep]. rewrite IH. apply orb_true_r.
Qed.

Lemma licenses_without_manifest_witness :
  (licenses sample_host sample_constants scm_world).1
  = Raise (FileNotFoundError "info.json").
Proof.
  apply (licenses_without_manifest sample_host sample_constants scm_world).
  reflexivity.
Defined.

Lemma licenses_bad_package_id_witness :
  (licenses unqualified_host sample_constants sample_world).1
  = Raise IndexError.
Proof.
  apply (licenses_bad_package_id unqualified_host sample_constants
           sample_world sample_manifest
           [("conda-forge::zlib-1.2.13", [("Zlib", ["/pkgs/zlib/LICENSE"])])]
           []
           "numpy-1.23.4-py39"
           [("BSD 3-Clause", ["/pkgs/numpy/LICENSE.txt"])]).
  - reflexivity.
  - reflexivity.
  - repeat constructor. by exists "conda-forge", "zlib-1.2.13".
  - repeat constructor; vm_compute; eauto.
  - intros H. apply contains_sep_complete in H. discriminate H.
Defined.

Lemma licenses_contents_witness :
  (licenses sample_host sample_constants sample_world).1
  = Return "licenses.Linux-x86_64.zip".
Proof.
  assert (Forall (λ pkg : string * list (string * list string),
                    has_package_name pkg.1) sample_licenses) as Hids.
  { repeat constructor.
    - by exists "conda-forge", "numpy-1.23.4-py39".
    - by exists "conda-forge", "zlib-1.2.13". }
  pose proof (licenses_contents sample_host sample_constants sample_world
                sample_manifest sample_licenses eq_refl eq_refl Hids) as H.
  cbv zeta in H.
  change (first_missing sample_world (license_paths sample_licenses))
    with (@None string) in H.
  exact (proj1 H).
Defined.

(** ** The build step and the driver *)

(** X18: [main] returns nothing but the name of the installer, and only
    when the build step returned and the installer is there once the
    cleanup is over. *)
Theorem main_returns_installer (build : World → result string * World)
    c w s w2 :
  main build c w = (Return s, w2) →
  s = OUTPUT_FILENAME c
  ∧ is_Some (files w2 !! s)
  ∧ ∃ built, (build w).1 = Return built.
Proof.
  unfold main. destruct (build w) as [built w1]. cbn [fst].
  destruct (cleanup_runs (clean_these_files w1) w1) as (w' & logged & -> & _).
  destruct built as [b|e]; [|done].
  unfold exists_. case_bool_decide as Hex; [|done].
  intros [= <- <-]. eauto.
Qed.

(** X19: without the [constructor] tool, [_constructor] raises its
    [RuntimeError] and leaves the world as it is; [main] then passes the
    error on, after trying to delete what was registered before and
    nothing else. *)
Theorem constructor_not_installed t h c w :
  find_executable t "constructor" = None
  ∨ find_executable t "constructor" = Some "" →
  _constructor t h c w = (Raise (RuntimeError not_installed), w)
  ∧ (main (_constructor t h c) c w).1 = Raise (RuntimeError not_installed)
  ∧ unlinked (main (_constructor t h c) c w).2
    = (unlinked w ++ clean_these_files w)%list.
Proof.
  intros Hfind.
  assert (_constructor t h c w = (Raise (RuntimeError not_installed), w))
    as Hc by (unfold _constructor; destruct Hfind as [-> | ->]; reflexivity).
  split; [exact Hc|]. unfold main. rewrite Hc.
  destruct (cleanup_runs (clean_these_files w) w)
    as (w' & logged & -> & Hun & _).
  by split.
Qed.

Lemma main_returns_installer_witness :
  is_Some (files (main leave_installer linux_constants scm_world).2
             !! "napari-0.4.17-Linux-x86_64.sh").
Proof.
  destruct (main_returns_installer leave_installer linux_constants scm_world
              "napari-0.4.17-Linux-x86_64.sh"
              (main leave_installer linux_constants scm_world).2)
    as (_ & H & _); [|exact H].
  vm_compute. reflexivity.
Defined.

Lemma constructor_not_installed_witness :
  (main (_constructor no_tools linux_host linux_constants) linux_constants
        scm_world).1
  = Raise (RuntimeError not_installed).
Proof.
  apply (constructor_not_installed no_tools linux_host linux_constants
           scm_world).
  left. reflexivity.
Defined.

Lemma registers_refl w : registers w w [].
Proof. unfold registers. by rewrite app_nil_r. Qed.

Lemma registers_trans w w1 w2 l1 l2 :
  registers w w1 l1 → registers w1 w2 l2 → registers w w2 (l1 ++ l2).
Proof.
  unfold registers. intros (-> & -> & -> & ->) (-> & -> & -> & ->).
  by rewrite app_assoc.
Qed.

Lemma welcome_registers h c version w w1 :
  write_welcome_file h c version w = (Return (), w1) →
  registers w w1 [path_join h [HERE c; "resources"; "osx_pkg_welcome.rtf"]].
Proof.
  unfold write_welcome_file. destruct (read_file _ w); [|done].
  destruct version; [|done]. by intros [= <-].
Qed.

Lemma save_image_registers t h outpath name logo w :
  registers w (save_image t h outpath name logo w)
            [path_join h [outpath; name]].
Proof. by unfold registers, save_image. Qed.

Lemma images_register t h installer_type outpath w w1 :
  _generate_background_images t h installer_type outpath w = (Return (), w1) →
  ∃ images, registers w w1 images.
Proof.
  unfold _generate_background_images.
  destruct (String.eqb installer_type "sh").
  { intros [= <-]. eexists. apply registers_refl. }
  destruct (imports t); [|done]. destruct (read_file _ w) as [logo|]; [|done].
  cbv zeta. intros [= <-].
  destruct (String.eqb installer_type "exe" || String.eqb installer_type "all"),
           (String.eqb installer_type "pkg" || String.eqb installer_type "all");
    eexists.
  - eapply registers_trans; [|apply save_image_registers].
    eapply registers_trans; apply save_image_registers.
  - eapply registers_trans; apply save_image_registers.
  - apply save_image_registers.
  - apply registers_refl.
Qed.

Lemma run_constructor_registers t c constructor empty_file d w r w1 :
  run_constructor t c constructor empty_file d w = (Return r, w1) →
  r = OUTPUT_FILENAME c ∧ registers w w1 ["construct.yaml"; empty_file].
Proof.
  unfold run_constructor. cbv zeta.
  destruct (check_call t _ _ _) as [[u|e] fs]; [|done].
  intros [= <- <-]. split; [done|]. unfold registers.
  destruct (environ _ !! "CONSTRUCTOR_PFX_CERTIFICATE_PASSWORD")
    as [[|a p]|]; cbn; by rewrite <- app_assoc.
Qed.

(** X20: when [_constructor] returns, it returns the name of the
    installer and has registered for cleanup, after what was registered
    before, the generated files of the platform and then, last,
    [construct.yaml] and the temporary file; it has deleted nothing and
    written no archive. *)
Theorem constructor_registers_its_files t h c w r w1 :
  _constructor t h c w = (Return r, w1) →
  r = OUTPUT_FILENAME c
  ∧ ∃ generated,
      registers w w1 (generated ++ ["construct.yaml"; temp_name t]).
Proof.
  unfold _constructor.
  destruct (find_executable t "constructor") as [[|a exe]|]; [done| |done].
  destruct (_get_version h w) as [version|]; [|done].
  destruct (_get_dependencies h c w (setup_cfg t)) as [deps|]; [|done].
  cbv zeta.
  generalize (definitions h c (write_file (temp_name t) "" w) version deps
                (temp_name t)).
  intros d.
  assert (registers w (write_file (temp_name t) "" w) []) as H0
    by (unfold registers; cbn; by rewrite app_nil_r).
  revert H0. generalize (write_file (temp_name t) "" w). intros w0 H0.
  destruct (if MACOS c then write_welcome_file h c version w0
            else (Return (), w0)) as [[[]|e] wa] eqn:Hwelcome; [|done].
  destruct (if has_value "welcome_image" d || has_value "header_image" d
            then _generate_background_images t h (installer_type_of d)
                   "resources" wa
            else (Return (), wa)) as [[[]|e] wb] eqn:Himages; [|done].
  intros Hrun. apply run_constructor_registers in Hrun as [-> Hrun].
  split; [done|].
  assert (∃ l, registers w0 wa l) as [l1 H1].
  { destruct (MACOS c).
    - eexists. by apply welcome_registers in Hwelcome.
    - injection Hwelcome as <-. eexists. apply registers_refl. }
  assert (∃ l, registers wa wb l) as [l2 H2].
  { destruct (_ || _).
    - by apply images_register in Himages.
    - injection Himages as <-. eexists. apply registers_refl. }
  exists (l1 ++ l2)%list.
  apply (registers_trans w w0 w1 [] _ H0).
  apply (registers_trans w0 wb w1 _ _ (registers_trans _ _ _ _ _ H1 H2) Hrun).
Qed.

(** X21: after a run of [main] that returns, [construct.yaml] and the
    temporary file of [_constructor] have been handed to [os.unlink] and
    are gone, unless the system refuses to delete them. *)
Theorem main_removes_build_files t h c w s w2 :
  main (_constructor t h c) c w = (Return s, w2) →
  "construct.yaml" ∈ unlinked w2 ∧ temp_name t ∈ unlinked w2
  ∧ ("construct.yaml" ∉ undeletable w → files w2 !! "construct.yaml" = None)
  ∧ (temp_name t ∉ undeletable w → files w2 !! temp_name t = None).
Proof.
  unfold main.
  destruct (_constructor t h c w) as [built w1] eqn:Hc.
  destruct (cleanup_runs (clean_these_files w1) w1)
    as (w' & logged & -> & Hun & _ & _ & _ & Hfiles & _).
  destruct built as [r|e]; [|done].
  apply constructor_registers_its_files in Hc
    as (_ & generated & Hclean & Hund & _).
  destruct (exists_ _ _); [|done]. intros [= _ <-].
  assert ("construct.yaml" ∈ clean_these_files w1
          ∧ temp_name t ∈ clean_these_files w1) as [Hy Ht].
  { rewrite Hclean, !elem_of_app, !elem_of_cons. tauto. }
  rewrite Hun, !elem_of_app. rewrite Hund in Hfiles.
  repeat split; try tauto.
  - intros Hd. rewrite Hfiles. by rewrite decide_True.
  - intros Hd. rewrite Hfiles. by rewrite decide_True.
Qed.

Lemma constructor_registers_its_files_witness :
  ∃ generated,
    registers override_world
      (_constructor linux_tools linux_host linux_constants override_world).2
      (generated ++ ["construct.yaml"; "/tmp/tmpab12"]).
Proof.
  apply (constructor_registers_its_files linux_tools linux_host
           linux_constants override_world "napari-0.4.17-Linux-x86_64.sh").
  vm_compute. reflexivity.
Defined.

Lemma main_removes_build_files_witness :
  files (main (_constructor linux_tools linux_host linux_constants)
              linux_constants override_world).2 !! "construct.yaml" = None.
Proof.
  destruct (main_removes_build_files linux_tools linux_host linux_constants
              override_world "napari-0.4.17-Linux-x86_64.sh"
              (main (_constructor linux_tools linux_host linux_constants)
                    linux_constants override_world).2) as (_ & _ & H & _).
  - vm_compute. reflexivity.
  - apply H. apply not_elem_of_empty.
Defined.

(** ** Dependencies *)

Lemma lstrip_head s :
  lstrip s = "" ∨ ∃ c r, lstrip s = String c r ∧ Re.is_space c = false.
Proof.
  induction s as [|c s IH]; [by left|]. cbn.
  destruct (Re.is_space c) eqn:Hc; [exact IH|]. right. eauto.
Qed.

Lemma rstrip_step c s :
  rstrip (String c s)
  = match rstrip s with
    | EmptyString => if Re.is_space c then EmptyString else String c EmptyString
    | r => String c r
    end.
Proof. reflexivity. Qed.

Lemma rstrip_head c s :
  Re.is_space c = false → ∃ r, rstrip (String c s) = String c r.
Proof. intros Hc. rewrite rstrip_step, Hc. destruct (rstrip s); eauto. Qed.

Lemma rstrip_idem s : rstrip (rstrip s) = rstrip s.
Proof.
  induction s as [|c s IH]; [done|]. rewrite rstrip_step.
  destruct (rstrip s) as [|a r] eqn:Hr.
  - destruct (Re.is_space c) eqn:Hc; [done|]. rewrite rstrip_step. cbn.
    by rewrite Hc.
  - rewrite rstrip_step, IH. done.
Qed.

Lemma strip_idem s : strip (strip s) = strip s.
Proof.
  unfold strip. destruct (lstrip_head s) as [->|(c & r & -> & Hc)]; [done|].
  destruct (rstrip_head c r Hc) as [r' Hr]. rewrite Hr.
  cbn [lstrip]. rewrite Hc, <- Hr. apply rstrip_idem.
Qed.

(** X22: every line [non_empty_lines] returns is non-empty and has no
    white space at either end. *)
Theorem non_empty_lines_trimmed block :
  Forall (λ line, line ≠ "" ∧ strip line = line) (non_empty_lines block).
Proof.
  unfold non_empty_lines. apply Forall_fmap, Forall_forall. intros l Hl.
  apply list_elem_of_In, List.filter_In in Hl as [_ Hl]. cbn.
  split; [|apply strip_idem].
  destruct (String.eqb_spec (strip l) ""); [done|done].
Qed.


Lemma list_index_missing x l :
  x ∉ l → list_index x l = Raise (OtherError "ValueError").
Proof.
  induction l as [|y l IH]; intros Hx; [done|]. cbn.
  rewrite not_elem_of_cons in Hx. destruct Hx as [Hne Hx].
  destruct (String.eqb_spec y x); [congruence|]. by rewrite IH.
Qed.



(** X24: how [_get_dependencies] fails.  It passes on the failure of the
    version; with a version, a [setup.cfg] without the section
    [conda_installer] gives a [KeyError], and a block [base_run] without
    the line [python] a [ValueError]. *)
Theorem get_dependencies_failures h c w cfg :
  (∀ e, _get_version h w = Raise e → _get_dependencies h c w cfg = Raise e)
  ∧ (∀ version, _get_version h w = Return version →
       cfg !! "conda_installer" = None →
       _get_dependencies h c w cfg = Raise (KeyError "conda_installer"))
  ∧ (∀ version base_run, _get_version h w = Return version →
       cfg_get cfg "conda_installer" "base_run" = Return base_run →
       "python" ∉ non_empty_lines base_run →
       _get_dependencies h c w cfg = Raise (OtherError "ValueError")).
Proof.
  unfold _get_dependencies, and_then. repeat split.
  - by intros e ->.
  - intros version -> Hc. unfold cfg_get. by rewrite Hc.
  - intros version base_run -> -> Hpy. unfold qualify, and_then.
    by rewrite list_index_missing.
Qed.


Lemma get_dependencies_failures_witness :
  _get_dependencies linux_host linux_constants override_world ∅
  = Raise (KeyError "conda_installer").
Proof.
  destruct (get_dependencies_failures linux_host linux_constants
              override_world ∅) as (_ & H & _).
  apply (H (Str "0.4.17+local")); reflexivity.
Defined.

End BundleExtra.
